(** * sqs-base: the SQS consumer ([consumer.py]) in Rocq

    A shallow embedding of the message validator [process_sqs_message], the
    batch handler [lambda_handler] and the local poller [main], together with
    the part of the Python runtime they rest on: JSON-shaped values, the
    exception classes that occur, the membership / subscript / [get]
    operators, and the standard library's [json.loads].

    Conventions.
    - A Python [str] is a [string] holding its UTF-8 encoding (the wire format
      of a message body); positions reported to the user count code points.
    - A Python [int] is a [Z].
    - A Python [dict] with [str] keys is an association list without
      duplicate keys, in insertion order.
    - A call that may raise returns a [result]: [Ok v] or [Raise e].
    - Logging is an observation only and is left out; floating point values
      are carried as the text they were read from. *)

From Stdlib Require Import String Ascii List ZArith NArith Lia Bool.
From Stdlib Require Import DecimalString.
Import ListNotations.

Local Open Scope list_scope.
Local Open Scope string_scope.

(* ===================================================================== *)
(** ** Python values, exceptions and operators                            *)
(* ===================================================================== *)

Module Py.

(** The values [json.loads] can produce, which are also the values of a
    Lambda event. *)
#[warnings="-register-all"]
Inductive pyval : Type :=
| PNone
| PBool (b : bool)
| PInt (z : Z)
| PFloat (lexeme : string)
| PStr (s : string)
| PList (items : list pyval)
| PDict (entries : list (string * pyval)).

Definition pydict : Type := list (string * pyval).

(** Exception classes, with the part of the builtin hierarchy in use. *)
Inductive exn_class : Type :=
| KeyboardInterrupt
| Exception
| ValueError
| JSONDecodeError
| TypeError
| LookupError
| KeyError
| AttributeError
| RuntimeError
| RecursionError
| ClientError.

Definition exn_class_eqb (c d : exn_class) : bool :=
  match c, d with
  | KeyboardInterrupt, KeyboardInterrupt | Exception, Exception
  | ValueError, ValueError | JSONDecodeError, JSONDecodeError
  | TypeError, TypeError | LookupError, LookupError | KeyError, KeyError
  | AttributeError, AttributeError | RuntimeError, RuntimeError
  | RecursionError, RecursionError | ClientError, ClientError => true
  | _, _ => false
  end.

(** The classes an instance of [c] is an instance of (its MRO, without
    [BaseException] and [object]). *)
Definition mro (c : exn_class) : list exn_class :=
  match c with
  | KeyboardInterrupt => [KeyboardInterrupt]
  | Exception => [Exception]
  | ValueError => [ValueError; Exception]
  | JSONDecodeError => [JSONDecodeError; ValueError; Exception]
  | TypeError => [TypeError; Exception]
  | LookupError => [LookupError; Exception]
  | KeyError => [KeyError; LookupError; Exception]
  | AttributeError => [AttributeError; Exception]
  | RuntimeError => [RuntimeError; Exception]
  | RecursionError => [RecursionError; RuntimeError; Exception]
  | ClientError => [ClientError; Exception]
  end.

(** An exception object: its class and [str(ex)]. *)
Record exn : Type := mkExn { exn_cls : exn_class; exn_str : string }.

Definition isinstance (e : exn) (c : exn_class) : bool :=
  existsb (exn_class_eqb c) (mro (exn_cls e)).

Inductive result (A : Type) : Type :=
| Ok (a : A)
| Raise (e : exn).
Arguments Ok {A} a.
Arguments Raise {A} e.

Definition bind {A B : Type} (r : result A) (k : A -> result B) : result B :=
  match r with
  | Ok a => k a
  | Raise e => Raise e
  end.

(** [type(v).__name__] *)
Definition type_name (v : pyval) : string :=
  match v with
  | PNone => "NoneType"
  | PBool _ => "bool"
  | PInt _ => "int"
  | PFloat _ => "float"
  | PStr _ => "str"
  | PList _ => "list"
  | PDict _ => "dict"
  end.

(** *** Strings *)

Definition string_of_nat (n : nat) : string :=
  NilZero.string_of_uint (Nat.to_uint n).

Definition string_of_Z (z : Z) : string :=
  NilZero.string_of_int (Z.to_int z).

Fixpoint is_prefix (p s : string) : bool :=
  match p, s with
  | EmptyString, _ => true
  | String a p', String b s' => Ascii.eqb a b && is_prefix p' s'
  | String _ _, EmptyString => false
  end.

(** [sub in s] for two [str]: [sub] occurs in [s] as a substring. *)
Fixpoint contains_substring (sub s : string) : bool :=
  is_prefix sub s ||
  match s with
  | EmptyString => false
  | String _ s' => contains_substring sub s'
  end.

(** A byte that continues a UTF-8 sequence (10xxxxxx). *)
Definition is_continuation (c : ascii) : bool :=
  let n := N_of_ascii c in (128 <=? n)%N && (n <? 192)%N.

(** The characters of a [str], each as a one-character [str]. *)
Fixpoint chars_acc (cur : string) (s : string) : list string :=
  match s with
  | EmptyString => match cur with EmptyString => [] | _ => [cur] end
  | String c s' =>
      if is_continuation c then chars_acc (cur ++ String c EmptyString) s'
      else match cur with
           | EmptyString => chars_acc (String c EmptyString) s'
           | _ => cur :: chars_acc (String c EmptyString) s'
           end
  end.

Definition chars (s : string) : list string := chars_acc EmptyString s.

(** *** Dictionaries *)

Fixpoint dict_lookup (k : string) (d : pydict) : option pyval :=
  match d with
  | [] => None
  | (k', v) :: d' => if String.eqb k k' then Some v else dict_lookup k d'
  end.

Definition dict_mem (k : string) (d : pydict) : bool :=
  match dict_lookup k d with Some _ => true | None => false end.

(** [d[k] = v]: an existing key keeps its place, a new one goes last. *)
Fixpoint dict_set (k : string) (v : pyval) (d : pydict) : pydict :=
  match d with
  | [] => [(k, v)]
  | (k', v') :: d' =>
      if String.eqb k k' then (k, v) :: d' else (k', v') :: dict_set k v d'
  end.

(** [d.get(k, default)] *)
Definition dict_get (k : string) (default : pyval) (d : pydict) : pyval :=
  match dict_lookup k d with Some v => v | None => default end.

(** *** [repr] and [str] *)

(** The double quote character. *)
Definition dquote : ascii := ascii_of_nat 34.

Definition hex_digit (n : N) : ascii :=
  if (n <? 10)%N then ascii_of_N (48 + n) else ascii_of_N (87 + n).

(** [repr] of a [str]: quotes chosen as Python does, backslash escapes for
    the quote, the backslash and the ASCII control characters.  Bytes of
    non-ASCII characters are copied (Python escapes the non-printable ones
    among them). *)
Fixpoint repr_body (q : ascii) (s : string) : string :=
  match s with
  | EmptyString => EmptyString
  | String c s' =>
      let n := N_of_ascii c in
      let rest := repr_body q s' in
      if Ascii.eqb c q || Ascii.eqb c "\"%char
      then String "\"%char (String c rest)
      else if (n =? 9)%N then "\t" ++ rest
      else if (n =? 10)%N then "\n" ++ rest
      else if (n =? 13)%N then "\r" ++ rest
      else if (n <? 32)%N || (n =? 127)%N
      then "\x" ++ String (hex_digit (n / 16)) (String (hex_digit (n mod 16)) rest)
      else String c rest
  end.

Definition repr_str (s : string) : string :=
  let q := if contains_substring "'" s
                 && negb (contains_substring (String dquote EmptyString) s)
           then dquote else "'"%char in
  String q (repr_body q s ++ String q EmptyString).

Fixpoint join (sep : string) (l : list string) : string :=
  match l with
  | [] => EmptyString
  | [x] => x
  | x :: l' => x ++ sep ++ join sep l'
  end.

Fixpoint repr (v : pyval) : string :=
  match v with
  | PNone => "None"
  | PBool true => "True"
  | PBool false => "False"
  | PInt z => string_of_Z z
  | PFloat lexeme => lexeme
  | PStr s => repr_str s
  | PList items => "[" ++ join ", " (map repr items) ++ "]"
  | PDict entries =>
      "{" ++ join ", " (map (fun kv => repr_str (fst kv) ++ ": " ++ repr (snd kv)) entries)
          ++ "}"
  end.

(** [str(v)], which is also what an f-string field [{v}] renders. *)
Definition str (v : pyval) : string :=
  match v with
  | PStr s => s
  | _ => repr v
  end.

(** *** Operators *)

Definition pyval_eqb (a b : pyval) : bool :=
  match a, b with
  | PStr s, PStr t => String.eqb s t
  | _, _ => false
  end.

(** [k in v] for a [str] [k]. *)
Definition contains (k : string) (v : pyval) : result bool :=
  match v with
  | PDict d => Ok (dict_mem k d)
  | PList items => Ok (existsb (pyval_eqb (PStr k)) items)
  | PStr s => Ok (contains_substring k s)
  | _ => Raise (mkExn TypeError
                  ("argument of type '" ++ type_name v ++ "' is not iterable"))
  end.

(** [v[k]] for a [str] [k]. *)
Definition getitem (v : pyval) (k : string) : result pyval :=
  match v with
  | PDict d =>
      match dict_lookup k d with
      | Some x => Ok x
      | None => Raise (mkExn KeyError (repr_str k))
      end
  | PList _ =>
      Raise (mkExn TypeError "list indices must be integers or slices, not str")
  | PStr _ =>
      Raise (mkExn TypeError "string indices must be integers, not 'str'")
  | _ => Raise (mkExn TypeError
                  ("'" ++ type_name v ++ "' object is not subscriptable"))
  end.

(** [v.get(k, default)]: only a [dict] has the method. *)
Definition get (v : pyval) (k : string) (default : pyval) : result pyval :=
  match v with
  | PDict d => Ok (dict_get k default d)
  | _ => Raise (mkExn AttributeError
                  ("'" ++ type_name v ++ "' object has no attribute 'get'"))
  end.

(** The items a [for] loop over [v] visits. *)
Definition iterate (v : pyval) : result (list pyval) :=
  match v with
  | PList items => Ok items
  | PDict d => Ok (map (fun kv => PStr (fst kv)) d)
  | PStr s => Ok (map PStr (chars s))
  | _ => Raise (mkExn TypeError
                  ("'" ++ type_name v ++ "' object is not iterable"))
  end.

End Py.

(* ===================================================================== *)
(** ** The standard library's JSON decoder                                *)
(* ===================================================================== *)

(** [json.loads] as CPython 3.11 runs it (the scanner of [_json] with
    [strict=True] and no hooks): the grammar it accepts, the value it
    builds and the [JSONDecodeError] it raises, message and position.  The
    validator only looks at whether decoding raised and, if not, at the
    decoded value. *)
Module Json.
Import Py.

Inductive failure : Type :=
| DecodeError (msg : string) (pos : nat)   (* JSONDecodeError(msg, doc, pos) *)
| Other (e : exn).

(** What scanning at an index yields: a value, the text after it and the
    index of that text; [StopIteration(idx)]; an exception; or [Exhausted]
    when the fuel of the model ran out (see [loads_fuel]). *)
Inductive scan (A : Type) : Type :=
| Scanned (a : A) (rest : string) (idx : nat)
| Stop (idx : nat)
| Fail (f : failure)
| Exhausted.
Arguments Scanned {A} a rest idx.
Arguments Stop {A} idx.
Arguments Fail {A} f.
Arguments Exhausted {A}.

Definition backslash : ascii := ascii_of_nat 92.
Definition newline : ascii := ascii_of_nat 10.

Definition is_whitespace (c : ascii) : bool :=
  let n := N_of_ascii c in
  (n =? 32)%N || (n =? 9)%N || (n =? 10)%N || (n =? 13)%N.

Definition is_digit (c : ascii) : bool :=
  let n := N_of_ascii c in (48 <=? n)%N && (n <=? 57)%N.

Fixpoint skip_whitespace (s : string) (idx : nat) : string * nat :=
  match s with
  | String c t => if is_whitespace c then skip_whitespace t (S idx) else (s, idx)
  | EmptyString => (s, idx)
  end.

Fixpoint span_digits (s : string) : string * string :=
  match s with
  | String c t =>
      if is_digit c
      then let (ds, r) := span_digits t in (String c ds, r)
      else (EmptyString, s)
  | EmptyString => (EmptyString, s)
  end.

Fixpoint drop (n : nat) (s : string) : string :=
  match n, s with
  | S n', String _ t => drop n' t
  | _, _ => s
  end.

(** *** Strings *)

Definition hexval (c : ascii) : option N :=
  let n := N_of_ascii c in
  if (48 <=? n)%N && (n <=? 57)%N then Some (n - 48)%N
  else if (97 <=? n)%N && (n <=? 102)%N then Some (n - 87)%N
  else if (65 <=? n)%N && (n <=? 70)%N then Some (n - 55)%N
  else None.

(** Four hexadecimal digits and the text after them. *)
Definition hex4 (s : string) : option (N * string) :=
  match s with
  | String a (String b (String c (String d t))) =>
      match hexval a, hexval b, hexval c, hexval d with
      | Some x, Some y, Some z, Some w =>
          Some (x * 4096 + y * 256 + z * 16 + w, t)%N
      | _, _, _, _ => None
      end
  | _ => None
  end.

Definition byte (n : N) : string := String (ascii_of_N n) EmptyString.

(** [chr(u)], UTF-8 encoded (a lone surrogate as its three bytes). *)
Definition chr (u : N) : string :=
  if (u <? 128)%N then byte u
  else if (u <? 2048)%N then byte (192 + u / 64) ++ byte (128 + u mod 64)
  else if (u <? 65536)%N
  then byte (224 + u / 4096) ++ byte (128 + (u / 64) mod 64) ++ byte (128 + u mod 64)
  else byte (240 + u / 262144) ++ byte (128 + (u / 4096) mod 64)
       ++ byte (128 + (u / 64) mod 64) ++ byte (128 + u mod 64).

(** The escapes other than [\u]. *)
Definition unescape (c : ascii) : option ascii :=
  let n := N_of_ascii c in
  if (n =? 34)%N || (n =? 92)%N || (n =? 47)%N then Some c
  else if (n =? 98)%N then Some (ascii_of_N 8)
  else if (n =? 102)%N then Some (ascii_of_N 12)
  else if (n =? 110)%N then Some (ascii_of_N 10)
  else if (n =? 114)%N then Some (ascii_of_N 13)
  else if (n =? 116)%N then Some (ascii_of_N 9)
  else None.

Definition is_high_surrogate (u : N) : bool := (55296 <=? u)%N && (u <=? 56319)%N.
Definition is_low_surrogate (u : N) : bool := (56320 <=? u)%N && (u <=? 57343)%N.
Definition join_surrogates (hi lo : N) : N :=
  (65536 + (hi - 55296) * 1024 + (lo - 56320))%N.

(** [scanstring]: [s] is the text after the opening quote, at index [idx];
    [begin] is the index of the quote; [acc] the characters read so far. *)
Fixpoint scanstring (fuel : nat) (s : string) (idx begin : nat) (acc : string)
  : scan string :=
  match fuel with
  | O => Exhausted
  | S fuel' =>
      match s with
      | EmptyString => Fail (DecodeError "Unterminated string starting at" begin)
      | String c t =>
          if Ascii.eqb c dquote then Scanned acc t (S idx)
          else if Ascii.eqb c backslash then
            match t with
            | EmptyString =>
                Fail (DecodeError "Unterminated string starting at" begin)
            | String e t' =>
                if Ascii.eqb e "u"%char then
                  (* four digits, and the text must go on after them *)
                  match (if (String.length t' <? 5)%nat then None else hex4 t') with
                  | None => Fail (DecodeError "Invalid \uXXXX escape" (idx + 1))
                  | Some (u, r) =>
                      (* a high surrogate looks ahead for its low half *)
                      if is_high_surrogate u && (7 <=? String.length r)%nat
                         && is_prefix "\u" r
                      then
                        match hex4 (drop 2 r) with
                        | None =>
                            Fail (DecodeError "Invalid \uXXXX escape" (idx + 7))
                        | Some (u2, r2) =>
                            if is_low_surrogate u2
                            then scanstring fuel' r2 (idx + 12) begin
                                   (acc ++ chr (join_surrogates u u2))
                            else scanstring fuel' r (idx + 6) begin (acc ++ chr u)
                        end
                      else scanstring fuel' r (idx + 6) begin (acc ++ chr u)
                  end
                else
                  match unescape e with
                  | Some x =>
                      scanstring fuel' t' (idx + 2) begin
                        (acc ++ String x EmptyString)
                  | None => Fail (DecodeError "Invalid \escape" idx)
                  end
            end
          else if (N_of_ascii c <=? 31)%N
          then Fail (DecodeError "Invalid control character at" idx)
          else scanstring fuel' t (S idx) begin (acc ++ String c EmptyString)
      end
  end.

(** *** Numbers *)

Fixpoint digits_value (s : string) (acc : Z) : Z :=
  match s with
  | String c t => digits_value t (10 * acc + Z.of_N (N_of_ascii c - 48))%Z
  | EmptyString => acc
  end.

Definition int_max_str_digits : nat := 4300.

(** [int(text)] for a JSON integer with digits [ds]. *)
Definition parse_int (neg : bool) (ds : string) : result pyval :=
  if (int_max_str_digits <? String.length ds)%nat
  then Raise (mkExn ValueError
         ("Exceeds the limit (" ++ string_of_nat int_max_str_digits
          ++ " digits) for integer string conversion: value has "
          ++ string_of_nat (String.length ds)
          ++ " digits; use sys.set_int_max_str_digits() to increase the limit"))
  else Ok (PInt (if neg then - digits_value ds 0 else digits_value ds 0)%Z).

(** The number at the head of [s], if there is one: an optional minus, then
    a zero or a digit string without leading zero, then optionally a point
    with at least one digit, then optionally [e] or [E], an optional sign
    and at least one digit.  An integer when neither option is taken.
    Each part is returned with the text after it. *)
Definition number_sign (s : string) : bool * string :=
  match s with
  | String c t => if Ascii.eqb c "-"%char then (true, t) else (false, s)
  | EmptyString => (false, s)
  end.

Definition number_int (s : string) : option (string * string) :=
  match s with
  | String c t =>
      if Ascii.eqb c "0"%char then Some (String c EmptyString, t)
      else if is_digit c
      then let (ds, r) := span_digits t in Some (String c ds, r)
      else None
  | EmptyString => None
  end.

Definition number_frac (s : string) : string * string :=
  match s with
  | String p (String d t) =>
      if Ascii.eqb p "."%char && is_digit d
      then let (fs, r) := span_digits t in (String p (String d fs), r)
      else (EmptyString, s)
  | _ => (EmptyString, s)
  end.

Definition number_exp (s : string) : string * string :=
  match s with
  | String e t =>
      if Ascii.eqb e "e"%char || Ascii.eqb e "E"%char then
        let '(sign, t') :=
          match t with
          | String sg u =>
              if Ascii.eqb sg "-"%char || Ascii.eqb sg "+"%char
              then (String sg EmptyString, u) else (EmptyString, t)
          | EmptyString => (EmptyString, t)
          end in
        let (es, r) := span_digits t' in
        match es with
        | EmptyString => (EmptyString, s)
        | _ => (String e (sign ++ es), r)
        end
      else (EmptyString, s)
  | EmptyString => (EmptyString, s)
  end.

Definition match_number (s : string) (start : nat) : scan pyval :=
  let (neg, s1) := number_sign s in
  match number_int s1 with
  | None => Stop start
  | Some (ip, r) =>
      let (frac, r1) := number_frac r in
      let (exp, r2) := number_exp r1 in
      let lexeme := (if neg then "-" else EmptyString) ++ ip ++ frac ++ exp in
      let idx := (start + String.length lexeme)%nat in
      match frac, exp with
      | EmptyString, EmptyString =>
          match parse_int neg ip with
          | Ok v => Scanned v r2 idx
          | Raise e => Fail (Other e)
          end
      | _, _ => Scanned (PFloat lexeme) r2 idx
      end
  end.

(** *** Values *)

Definition map_scan {A B : Type} (f : A -> B) (r : scan A) : scan B :=
  match r with
  | Scanned a rest idx => Scanned (f a) rest idx
  | Stop idx => Stop idx
  | Fail e => Fail e
  | Exhausted => Exhausted
  end.

Definition recursion_error (what : string) : failure :=
  Other (mkExn RecursionError
           ("maximum recursion depth exceeded while decoding a JSON " ++ what
            ++ " from a unicode string")).

(** [scan_once] reads one value at [idx]; [parse_object] and [parse_array]
    are the loops over the members of an object and the items of an array,
    entered where the first key, respectively the first item, is expected.
    [depth] is how many more objects and arrays may be entered before the
    interpreter's recursion limit is hit. *)
Fixpoint scan_once (fuel depth : nat) (s : string) (idx : nat) {struct fuel}
  : scan pyval :=
  match fuel with
  | O => Exhausted
  | S fuel' =>
      match s with
      | EmptyString => Stop idx
      | String c t =>
          if Ascii.eqb c dquote
          then map_scan PStr (scanstring (S (String.length t)) t (S idx) idx EmptyString)
          else if Ascii.eqb c "{"%char then
            match depth with
            | O => Fail (recursion_error "object")
            | S depth' =>
                let (t1, i1) := skip_whitespace t (S idx) in
                if is_prefix "}" t1 then Scanned (PDict []) (drop 1 t1) (S i1)
                else parse_object fuel' depth' t1 i1 []
            end
          else if Ascii.eqb c "["%char then
            match depth with
            | O => Fail (recursion_error "array")
            | S depth' =>
                let (t1, i1) := skip_whitespace t (S idx) in
                if is_prefix "]" t1 then Scanned (PList []) (drop 1 t1) (S i1)
                else parse_array fuel' depth' t1 i1 []
            end
          else if is_prefix "null" s then Scanned PNone (drop 4 s) (idx + 4)
          else if is_prefix "true" s then Scanned (PBool true) (drop 4 s) (idx + 4)
          else if is_prefix "false" s then Scanned (PBool false) (drop 5 s) (idx + 5)
          else if is_prefix "NaN" s then Scanned (PFloat "NaN") (drop 3 s) (idx + 3)
          else if is_prefix "Infinity" s
          then Scanned (PFloat "Infinity") (drop 8 s) (idx + 8)
          else if is_prefix "-Infinity" s
          then Scanned (PFloat "-Infinity") (drop 9 s) (idx + 9)
          else match_number s idx
      end
  end

with parse_object (fuel depth : nat) (s : string) (idx : nat) (acc : pydict)
  {struct fuel} : scan pyval :=
  match fuel with
  | O => Exhausted
  | S fuel' =>
      if is_prefix (String dquote EmptyString) s then
        match scanstring (String.length s) (drop 1 s) (S idx) idx EmptyString with
        | Scanned key r i =>
            let (r1, i1) := skip_whitespace r i in
            if is_prefix ":" r1 then
              let (r3, i3) := skip_whitespace (drop 1 r1) (S i1) in
              match scan_once fuel' depth r3 i3 with
              | Scanned v r4 i4 =>
                  let acc' := dict_set key v acc in
                  let (r5, i5) := skip_whitespace r4 i4 in
                  if is_prefix "}" r5 then Scanned (PDict acc') (drop 1 r5) (S i5)
                  else if is_prefix "," r5 then
                    let (r7, i7) := skip_whitespace (drop 1 r5) (S i5) in
                    parse_object fuel' depth r7 i7 acc'
                  else Fail (DecodeError "Expecting ',' delimiter" i5)
              | other => other
              end
            else Fail (DecodeError "Expecting ':' delimiter" i1)
        | Stop i => Stop i
        | Fail e => Fail e
        | Exhausted => Exhausted
        end
      else Fail (DecodeError "Expecting property name enclosed in double quotes" idx)
  end

with parse_array (fuel depth : nat) (s : string) (idx : nat) (acc : list pyval)
  {struct fuel} : scan pyval :=
  match fuel with
  | O => Exhausted
  | S fuel' =>
      match scan_once fuel' depth s idx with
      | Scanned v r i =>
          let acc' := (acc ++ [v])%list in
          let (r1, i1) := skip_whitespace r i in
          if is_prefix "]" r1 then Scanned (PList acc') (drop 1 r1) (S i1)
          else if is_prefix "," r1 then
            let (r3, i3) := skip_whitespace (drop 1 r1) (S i1) in
            parse_array fuel' depth r3 i3 acc'
          else Fail (DecodeError "Expecting ',' delimiter" i1)
      | other => other
      end
  end.

(** *** Errors *)

(** The number of characters (code points) of a UTF-8 text. *)
Fixpoint char_count (s : string) : nat :=
  match s with
  | String c t => if is_continuation c then char_count t else S (char_count t)
  | EmptyString => O
  end.

Fixpoint count_newlines (s : string) : nat :=
  match s with
  | String c t => if Ascii.eqb c newline then S (count_newlines t) else count_newlines t
  | EmptyString => O
  end.

(** The text after the last newline of [s] ([s] itself if it has none). *)
Fixpoint last_line (s : string) : string :=
  match s with
  | String c t =>
      if Ascii.eqb c newline then last_line t
      else if (0 <? count_newlines t)%nat then last_line t
      else s
  | EmptyString => s
  end.

(** [JSONDecodeError(msg, doc, pos)]; [pos] indexes the bytes of [doc]. *)
Definition decode_error (doc msg : string) (pos : nat) : exn :=
  let before := substring 0 pos doc in
  mkExn JSONDecodeError
    (msg ++ ": line " ++ string_of_nat (count_newlines before + 1)
         ++ " column " ++ string_of_nat (char_count (last_line before) + 1)
         ++ " (char " ++ string_of_nat (char_count before) ++ ")").

(** *** [json.loads] *)

(** The byte order mark U+FEFF in UTF-8. *)
Definition bom : string := byte 239 ++ byte 187 ++ byte 191.

(** [sys.getrecursionlimit()] as the interpreter starts; the frames in use
    when [json.loads] is called lower what is left for nesting. *)
Definition recursion_limit : nat := 1000.

(** Entering an object or array and reading one of its members each take
    a unit of fuel and consume a character, so this much is never used up
    (see [loads_fuel_enough]). *)
Definition loads_fuel (s : string) : nat := 2 * String.length s + 2.

Definition loads (v : pyval) : result pyval :=
  match v with
  | PStr s =>
      if is_prefix bom s
      then Raise (decode_error s "Unexpected UTF-8 BOM (decode using utf-8-sig)" 0)
      else
        let (s1, i1) := skip_whitespace s 0 in
        match scan_once (loads_fuel s) recursion_limit s1 i1 with
        | Scanned obj r i =>
            let (r', i') := skip_whitespace r i in
            match r' with
            | EmptyString => Ok obj
            | String _ _ => Raise (decode_error s "Extra data" i')
            end
        | Stop i => Raise (decode_error s "Expecting value" i)
        | Fail (DecodeError msg pos) => Raise (decode_error s msg pos)
        | Fail (Other e) => Raise e
        | Exhausted => Raise (mkExn RecursionError "maximum recursion depth exceeded")
        end
  | _ =>
      Raise (mkExn TypeError
               ("the JSON object must be str, bytes or bytearray, not "
                ++ type_name v))
  end.

End Json.

(* ===================================================================== *)
(** ** consumer.py                                                        *)
(* ===================================================================== *)

Import Py.

(** The process environment, [os.environ]. *)
Definition environment : Type := list (string * string).

Fixpoint environ_lookup (key : string) (environ : environment) : option string :=
  match environ with
  | [] => None
  | (k, v) :: rest => if String.eqb key k then Some v else environ_lookup key rest
  end.

(** [os.environ.get(key)] *)
Definition environ_get (environ : environment) (key : string) : pyval :=
  match environ_lookup key environ with
  | Some v => PStr v
  | None => PNone
  end.

(** [os.environ.get(key, default)] *)
Definition environ_get_default (environ : environment) (key default : string)
  : string :=
  match environ_lookup key environ with
  | Some v => v
  | None => default
  end.

(** *** The validator *)

(** [process_sqs_message(message_body, cb_datamap)]: returns normally or
    raises.  The body is whatever the record holds under its body key. *)
Definition process_sqs_message (message_body : pyval) (cb_datamap : pydict)
  : result unit :=
  (* Load the message to a dict *)
  match Json.loads message_body with
  | Raise ex =>
      if isinstance ex Exception
      then Raise (mkExn Exception ("[Data Load Error] [" ++ exn_str ex ++ "]"))
      else Raise ex
  | Ok message_data =>
      (* Extract the data field *)
      match contains "data" message_data with
      | Raise ex => Raise ex
      | Ok true => Ok tt
      | Ok false => Raise (mkExn ValueError "Message missing 'data' field")
      end
  end.

(** The module-level [datamap], built when the module is imported. *)
Definition datamap (environ : environment) : pydict :=
  [("LOG_LEVEL", environ_get environ "LOG_LEVEL")].

(** *** The batch handler *)

(** The [response] dictionary of [lambda_handler]. *)
Record response : Type := mkResponse {
  statusCode : Z;
  processed : Z;
  failed : Z;
  errors : list string
}.

Definition set_statusCode (code : Z) (r : response) : response :=
  mkResponse code (processed r) (failed r) (errors r).
Definition incr_processed (r : response) : response :=
  mkResponse (statusCode r) (processed r + 1) (failed r) (errors r).
Definition incr_failed (r : response) : response :=
  mkResponse (statusCode r) (processed r) (failed r + 1) (errors r).
Definition append_error (e : string) (r : response) : response :=
  mkResponse (statusCode r) (processed r) (failed r) (errors r ++ [e])%list.

(** Statements that update a state [S] and may raise: the state reached,
    and the value or the exception. *)
Definition stmt (S A : Type) : Type := S -> S * result A.

Definition ret {S A : Type} (a : A) : stmt S A := fun s => (s, Ok a).
Definition seq {S A B : Type} (m : stmt S A) (k : A -> stmt S B) : stmt S B :=
  fun s => match m s with
           | (s', Ok a) => k a s'
           | (s', Raise e) => (s', Raise e)
           end.
Definition eval {S A : Type} (r : result A) : stmt S A := fun s => (s, r).
Definition update {S : Type} (f : S -> S) : stmt S unit := fun s => (f s, Ok tt).

(** [try: body except cls1 as ex: h1(ex) except cls2 as ex: h2(ex) ...]:
    the first clause whose class the exception is an instance of runs; what
    a handler raises is not offered to the clauses after it. *)
Fixpoint select_clause {S A : Type} (clauses : list (exn_class * (exn -> stmt S A)))
  (ex : exn) : stmt S A :=
  match clauses with
  | [] => eval (Raise ex)
  | (cls, handler) :: rest =>
      if isinstance ex cls then handler ex else select_clause rest ex
  end.

Definition try_except {S A : Type} (body : stmt S A)
  (clauses : list (exn_class * (exn -> stmt S A))) : stmt S A :=
  fun s => match body s with
           | (s', Raise ex) => select_clause clauses ex s'
           | done => done
           end.

Declare Scope stmt_scope.
Delimit Scope stmt_scope with stmt.
Notation "x <- m ;; k" := (seq m (fun x => k))
  (at level 61, m at next level, right associativity) : stmt_scope.
Notation "m ;; k" := (seq m (fun _ => k))
  (at level 61, right associativity) : stmt_scope.

Section Handler.

Variable environ : environment.

Local Open Scope stmt_scope.

(** The [try] block of the loop body, for one [record]. *)
Definition record_try (record : pyval) : stmt response unit :=
  has_body <- eval (contains "body" record) ;;
  if negb has_body then
    update incr_failed ;;
    message_id <- eval (get record "messageId" (PStr "unknown")) ;;
    update (append_error ("Record missing 'body' field: " ++ str message_id))
  else
    message_body <- eval (getitem record "body") ;;
    message_id <- eval (get record "messageId" (PStr "unknown")) ;;
    eval (process_sqs_message message_body (datamap environ)) ;;
    update incr_processed.

(** The [except Exception as ex] block. *)
Definition record_except (record : pyval) (ex : exn) : stmt response unit :=
  update incr_failed ;;
  message_id <- eval (get record "messageId" (PStr "unknown")) ;;
  update (append_error
            ("Error processing message " ++ str message_id ++ ": " ++ exn_str ex)).

(** The loop body. *)
Definition record_step (record : pyval) : stmt response unit :=
  try_except (record_try record) [(Exception, record_except record)].

(** [for record in records: ...]; an exception that leaves the body ends
    the loop. *)
Fixpoint for_each {S A : Type} (body : A -> stmt S unit) (items : list A)
  : stmt S unit :=
  match items with
  | [] => ret tt
  | x :: rest => body x ;; for_each body rest
  end.

(** Set status code based on results. *)
Definition set_status (r : response) : response :=
  if (failed r >? 0)%Z then
    let r := set_statusCode 207 r in
    if (processed r =? 0)%Z then set_statusCode 500 r else r
  else r.

(** [lambda_handler(event, context)]: the response returned, or the
    exception that reaches the caller. *)
Definition lambda_handler (event : pydict) (context : pyval) : result response :=
  let response := mkResponse 200 0 0 [] in
  if negb (dict_mem "Records" event) then
    Ok (append_error "No 'Records' found in event" (set_statusCode 400 response))
  else
    match (records <- eval (bind (getitem (PDict event) "Records") iterate) ;;
           for_each record_step records) response with
    | (response, Ok _) => Ok (set_status response)
    | (_, Raise ex) => Raise ex
    end.

End Handler.

(** *** The queue client *)

(** [bool(v)] *)
Definition truthy (v : pyval) : bool :=
  match v with
  | PNone => false
  | PBool b => b
  | PInt z => negb (z =? 0)%Z
  | PFloat _ => true   (* a zero is not told apart *)
  | PStr s => negb (String.eqb s EmptyString)
  | PList items => match items with [] => false | _ => true end
  | PDict entries => match entries with [] => false | _ => true end
  end.

(** A client, as the keyword arguments [session.client] was called with:
    [endpoint_url = None] when the argument was not passed, which leaves
    the client on the service's default (production) endpoint. *)
Record sqs_client : Type := mkClient {
  service_name : string;
  region_name : string;
  endpoint_url : option string;
  aws_access_key_id : string;
  aws_secret_access_key : string
}.

(** What lies beyond the program: [boto3] and the queue service.
    - [client_error c]: the exception creating client [c] raises, if any;
    - [queue_url_response c name]: [c.get_queue_url(QueueName=name)];
    - [delete_response calls url handle]: [delete_message(QueueUrl=url,
      ReceiptHandle=handle)] after the deletions [calls]. *)
Record queue_service : Type := mkService {
  client_error : sqs_client -> option exn;
  queue_url_response : sqs_client -> pyval -> result pyval;
  delete_response : list pyval -> pyval -> pyval -> result unit
}.

Section Poller.

Variable environ : environment.
Variable service : queue_service.

Local Open Scope stmt_scope.

(** [get_sqs_client(endpoint_url, region_name, access_key_id,
    secret_access_key)] *)
Definition get_sqs_client (endpoint_url : option string)
  (region_name access_key_id secret_access_key : string) : result sqs_client :=
  let created c :=
    match client_error service c with
    | Some ex => Raise ex
    | None => Ok c
    end in
  if match endpoint_url with Some url => truthy (PStr url) | None => false end
  then
    (* LocalStack or custom endpoint *)
    created (mkClient "sqs" region_name endpoint_url access_key_id secret_access_key)
  else
    (* AWS SQS *)
    created (mkClient "sqs" region_name None access_key_id secret_access_key).

(** [get_queue_url(sqs_client, queue_name)]: the URL, or [None]. *)
Definition get_queue_url (client : sqs_client) (queue_name : pyval)
  : result pyval :=
  match bind (queue_url_response service client queue_name)
             (fun response => getitem response "QueueUrl") with
  | Ok url => Ok url
  | Raise e => if isinstance e Exception then Ok PNone else Raise e
  end.

(** *** The local poller *)

Definition is_space (c : ascii) : bool :=
  let n := N_of_ascii c in (n =? 32)%N || ((9 <=? n)%N && (n <=? 13)%N).

Fixpoint skip_space (s : string) : string :=
  match s with
  | String c t => if is_space c then skip_space t else s
  | EmptyString => s
  end.

(** The digits of an [int] literal, single underscores between them
    dropped, and the text after them; [None] when an underscore is doubled
    or comes last.  [prev] tells that the last character was one. *)
Fixpoint int_digits (s : string) (prev : bool) : option (string * string) :=
  match s with
  | String c t =>
      if Json.is_digit c then
        match int_digits t false with
        | Some (ds, r) => Some (String c ds, r)
        | None => None
        end
      else if Ascii.eqb c "_"%char then
        if prev then None else int_digits t true
      else if prev then None else Some (EmptyString, s)
  | EmptyString => if prev then None else Some (EmptyString, s)
  end.

(** The code points, beyond ASCII, that are white space to [str.isspace]
    (Unicode 14, as in CPython 3.11). *)
Definition unicode_isspace (u : N) : bool :=
  existsb (N.eqb u) [133; 160; 5760; 8232; 8233; 8239; 8287; 12288]%N
  || ((8192 <=? u)%N && (u <=? 8202)%N).

(** The decimal digits beyond ASCII come in runs of ten, zero first; these
    are the code points of the zeros (Unicode 14, as in CPython 3.11). *)
Definition decimal_zeros : list N :=
  [
    1632; 1776; 1984; 2406; 2534; 2662; 2790; 2918; 3046; 3174; 3302; 3430;
    3558; 3664; 3792; 3872; 4160; 4240; 6112; 6160; 6470; 6608; 6784; 6800;
    6992; 7088; 7232; 7248; 42528; 43216; 43264; 43472; 43504; 43600;
    44016; 65296; 66720; 68912; 69734; 69872; 69942; 70096; 70384; 70736;
    70864; 71248; 71360; 71472; 71904; 72016; 72784; 73040; 73120; 92768;
    92864; 93008; 120782; 120792; 120802; 120812; 120822; 123200; 123632;
    125264; 130032
  ]%N.

(** [unicodedata.decimal(chr(u))], if it has one. *)
Definition unicode_decimal (u : N) : option N :=
  match find (fun z => (z <=? u)%N && (u <? z + 10)%N) decimal_zeros with
  | Some z => Some (u - z)%N
  | None => None
  end.

(** The character encoded by a lead byte, of which [lead] are the payload
    bits, and the bytes [conts] after it: [None] unless those are
    continuation bytes and the character is at least [least] (no overlong
    form), no surrogate and at most U+10FFFF. *)
Fixpoint code_point (lead : N) (conts : list ascii) (least : N) : option N :=
  match conts with
  | [] =>
      if (least <=? lead)%N && (lead <=? 1114111)%N
         && negb ((55296 <=? lead)%N && (lead <=? 57343)%N)
      then Some lead else None
  | c :: rest =>
      if is_continuation c
      then code_point (lead * 64 + (N_of_ascii c - 128)) rest least
      else None
  end.

(** What a character beyond ASCII becomes: a space, its digit, or a
    question mark that ends the text. *)
Definition transformed (u : option N) (rest : string) : string :=
  match u with
  | Some u =>
      if unicode_isspace u then String " "%char rest
      else match unicode_decimal u with
           | Some d => String (ascii_of_N (48 + d)) rest
           | None => "?"
           end
  | None => "?"
  end.

(** The digits and spaces of all scripts turned into those of ASCII, up to
    the first character that is neither (bytes that are not UTF-8 stand
    for characters that are neither). *)
Fixpoint transform (s : string) : string :=
  match s with
  | EmptyString => EmptyString
  | String c t =>
      let n := N_of_ascii c in
      if (n <? 127)%N then String c (transform t)
      else if (192 <=? n)%N && (n <? 224)%N then
        match t with
        | String c1 r => transformed (code_point (n - 192) [c1] 128) (transform r)
        | _ => "?"
        end
      else if (224 <=? n)%N && (n <? 240)%N then
        match t with
        | String c1 (String c2 r) =>
            transformed (code_point (n - 224) [c1; c2] 2048) (transform r)
        | _ => "?"
        end
      else if (240 <=? n)%N && (n <? 248)%N then
        match t with
        | String c1 (String c2 (String c3 r)) =>
            transformed (code_point (n - 240) [c1; c2; c3] 65536) (transform r)
        | _ => "?"
        end
      else "?"
  end.

Fixpoint is_ascii (s : string) : bool :=
  match s with
  | String c t => (N_of_ascii c <? 128)%N && is_ascii t
  | EmptyString => true
  end.

(** The first [n] characters of a text. *)
Fixpoint take_chars (n : nat) (s : string) : string :=
  match s with
  | EmptyString => EmptyString
  | String c t =>
      if is_continuation c then String c (take_chars n t)
      else match n with
           | O => EmptyString
           | S n' => String c (take_chars n' t)
           end
  end.

(** Reading the ASCII [text] that stands for [s] as an integer in base
    ten. *)
Definition long_from_string (s text : string) : result Z :=
  let invalid :=
    Raise (mkExn ValueError
             ("invalid literal for int() with base 10: "
              ++ take_chars 200 (repr_str s))) in
  let s1 := skip_space text in
  let '(neg, s2) :=
    match s1 with
    | String c t =>
        if Ascii.eqb c "-"%char then (true, t)
        else if Ascii.eqb c "+"%char then (false, t)
        else (false, s1)
    | EmptyString => (false, s1)
    end in
  if is_prefix "_" s2 then invalid
  else
    match int_digits s2 false with
    | None => invalid
    | Some (ds, r) =>
        match ds with
        | EmptyString => invalid
        | _ =>
            match Json.parse_int neg ds with
            | Ok (PInt z) =>
                match skip_space r with
                | EmptyString => Ok z
                | _ => invalid
                end
            | Ok _ => invalid
            | Raise e => Raise e
            end
        end
    end.

(** [int(s)] for a [str]: the decimal digits and the white space of every
    script are read as those of ASCII.  (In the text of the error, [repr]
    is as [repr_str] has it.) *)
Definition int_of_str (s : string) : result Z :=
  long_from_string s (if is_ascii s then s else transform s).

(** The settings [main] reads from the environment. *)
Record config : Type := mkConfig {
  cfg_endpoint_url : string;
  cfg_queue_name : pyval;
  cfg_region_name : string;
  cfg_access_key_id : string;
  cfg_secret_access_key : string;
  cfg_poll_wait_time : Z;
  cfg_visibility_timeout : Z
}.

(** Get configuration from environment variables. *)
Definition read_config : result config :=
  let endpoint_url := environ_get_default environ "SQS_ENDPOINT_URL" "http://localhost:4566" in
  let queue_name := environ_get environ "SQS_QUEUE_NAME" in
  let region_name := environ_get_default environ "SQS_REGION" "us-east-1" in
  let access_key_id := environ_get_default environ "SQS_ACCESS_KEY_ID" "test" in
  let secret_access_key := environ_get_default environ "SQS_SECRET_ACCESS_KEY" "test" in
  bind (int_of_str (environ_get_default environ "SQS_POLL_WAIT_TIME" "20"))
    (fun poll_wait_time =>
  bind (int_of_str (environ_get_default environ "SQS_VISIBILITY_TIMEOUT" "30"))
    (fun visibility_timeout =>
  Ok (mkConfig endpoint_url queue_name region_name access_key_id
        secret_access_key poll_wait_time visibility_timeout))).

(** Create SQS client: the call [main] makes. *)
Definition main_client (cfg : config) : result sqs_client :=
  get_sqs_client (Some (cfg_endpoint_url cfg)) (cfg_region_name cfg)
    (cfg_access_key_id cfg) (cfg_secret_access_key cfg).

(** The poller's counters, and the receipt handle of every
    [delete_message] call made so far, oldest first. *)
Record poller : Type := mkPoller {
  processed_count : Z;
  failed_count : Z;
  delete_calls : list pyval
}.

Definition incr_processed_count (p : poller) : poller :=
  mkPoller (processed_count p + 1) (failed_count p) (delete_calls p).
Definition incr_failed_count (p : poller) : poller :=
  mkPoller (processed_count p) (failed_count p + 1) (delete_calls p).

(** [sqs_client.delete_message(QueueUrl=queue_url,
    ReceiptHandle=receipt_handle)] *)
Definition delete_message (queue_url receipt_handle : pyval) : stmt poller unit :=
  fun p =>
    (mkPoller (processed_count p) (failed_count p)
       (delete_calls p ++ [receipt_handle])%list,
     delete_response service (delete_calls p) queue_url receipt_handle).

(** The body of [for message in response['Messages']]. *)
Definition poll_message (queue_url : pyval) (message : pyval) : stmt poller unit :=
  receipt_handle <- eval (getitem message "ReceiptHandle") ;;
  message_id <- eval (get message "MessageId" (PStr "unknown")) ;;
  try_except
    (message_body <- eval (getitem message "Body") ;;
     eval (process_sqs_message message_body (datamap environ)) ;;
     (* Delete message from queue after successful processing *)
     delete_message queue_url receipt_handle ;;
     update incr_processed_count)
    [(JSONDecodeError, fun e =>
        update incr_failed_count ;;
        (* Delete problematic message to prevent infinite retries *)
        try_except (delete_message queue_url receipt_handle)
          [(Exception, fun delete_error => ret tt)]);
     (Exception, fun e =>
        update incr_failed_count)
        (* Message will become visible again after visibility timeout *)
    ].

(** One turn of the [while] loop, given what [receive_message] did. *)
Definition poll_once (queue_url : pyval) (received : result pyval)
  : stmt poller unit :=
  response <- eval received ;;
  has_messages <- eval (contains "Messages" response) ;;
  if has_messages then
    messages <- eval (bind (getitem response "Messages") iterate) ;;
    for_each (poll_message queue_url) messages
  else ret tt.

(** [while not SHUTDOWN_REQUESTED[0]]: [fetches] lists what
    [receive_message] did in each turn made before the flag was seen set.
    A [KeyboardInterrupt] leaves the loop, any other [Exception] is logged
    and the loop goes on. *)
Fixpoint poll_loop (queue_url : pyval) (fetches : list (result pyval))
  : stmt poller unit :=
  match fetches with
  | [] => ret tt
  | received :: later =>
      fun p =>
        match poll_once queue_url received p with
        | (p', Ok _) => poll_loop queue_url later p'
        | (p', Raise e) =>
            if isinstance e KeyboardInterrupt then (p', Ok tt)
            else if isinstance e Exception then poll_loop queue_url later p'
            else (p', Raise e)
        end
  end.

(** How a run of [main] ends. *)
Inductive outcome : Type :=
| Exit (code : Z)               (* sys.exit(code) *)
| Uncaught (e : exn)            (* an exception left main *)
| Stopped (final : poller).     (* the loop ended and main returned *)

Definition main (fetches : list (result pyval)) : outcome :=
  match read_config with
  | Raise e => Uncaught e
  | Ok cfg =>
      match main_client cfg with
      | Raise e => if isinstance e Exception then Exit 1 else Uncaught e
      | Ok client =>
          match get_queue_url client (cfg_queue_name cfg) with
          | Raise e => Uncaught e
          | Ok queue_url =>
              if negb (truthy queue_url) then Exit 1
              else
                match poll_loop queue_url fetches (mkPoller 0 0 []) with
                | (p, Ok _) => Stopped p
                | (_, Raise e) => Uncaught e
                end
          end
      end
  end.

End Poller.

(* ===================================================================== *)
(** ** Sample inputs                                                      *)
(* ===================================================================== *)

Module Samples.

(** JSON text written with apostrophes where it has double quotes. *)
Fixpoint json (s : string) : string :=
  match s with
  | String c t =>
      String (if Ascii.eqb c "'"%char then dquote else c) (json t)
  | EmptyString => EmptyString
  end.

(** The bodies of the repository's tests. *)
Definition sample_message_body : pyval :=
  PStr (json "{'data': {'key': 'value'}, 'metadata': {'timestamp': '2025-10-06T19:48:45.380843', 'source': 'test-source', 'version': '1.0'}}").
Definition empty_data_body : pyval := PStr (json "{'data': {}}").
Definition no_data_body : pyval := PStr (json "{'metadata': {}}").
Definition invalid_body : pyval := PStr "not valid json".

(** Bodies that are valid JSON but not objects. *)
Definition array_body : pyval := PStr (json "['data']").
Definition number_body : pyval := PStr "1".

(** A record as the queue trigger delivers it. *)
Definition sample_sqs_record : pyval :=
  PDict [("messageId", PStr "msg-123"); ("receiptHandle", PStr "receipt-abc");
         ("body", sample_message_body); ("attributes", PDict [])].

(** The events of the repository's tests: one record that is valid and one
    that is not; one record without a body. *)
Definition valid_record : pydict :=
  [("messageId", PStr "m1"); ("body", sample_message_body)].
Definition invalid_record : pydict :=
  [("messageId", PStr "m2"); ("body", PStr "invalid")].
Definition no_body_record : pydict := [("messageId", PStr "m1")].
Definition partial_event : pydict :=
  [("Records", PList [PDict valid_record; PDict invalid_record])].
Definition no_body_event : pydict := [("Records", PList [PDict no_body_record])].

(** An event whose [Records] is [None]. *)
Definition null_records_event : pydict := [("Records", PNone)].

(** A service in which every call succeeds. *)
Definition healthy_service : queue_service :=
  mkService (fun _ => None)
            (fun _ _ => Ok (PDict [("QueueUrl", PStr "http://q/foo")]))
            (fun _ _ _ => Ok tt).

(** A message as [receive_message] returns it. *)
Definition message (receipt_handle : string) (body : pyval) : pydict :=
  [("MessageId", PStr "m1"); ("ReceiptHandle", PStr receipt_handle); ("Body", body)].

(** The settings and the client of a run without any variable set. *)
Definition default_config : config :=
  mkConfig "http://localhost:4566" PNone "us-east-1" "test" "test" 20 30.
Definition default_client : sqs_client :=
  mkClient "sqs" "us-east-1" (Some "http://localhost:4566") "test" "test".

(** A service that does not know the queue, and one whose deletions fail. *)
Definition access_denied : exn :=
  mkExn ClientError
    "An error occurred (AccessDenied) when calling the operation: Unknown".
Definition no_queue_service : queue_service :=
  mkService (fun _ => None) (fun _ _ => Raise access_denied) (fun _ _ _ => Ok tt).
Definition failing_service : queue_service :=
  mkService (fun _ => None)
            (fun _ _ => Ok (PDict [("QueueUrl", PStr "http://q/foo")]))
            (fun _ _ _ => Raise access_denied).

(** A fetched batch: a valid message, one without receipt handle, a valid
    one; and a batch of a valid and an invalid message. *)
Definition message_without_handle : pydict :=
  [("MessageId", PStr "m2"); ("Body", sample_message_body)].
Definition broken_batch : pydict :=
  [("Messages", PList [PDict (message "rh-1" sample_message_body);
                       PDict message_without_handle;
                       PDict (message "rh-3" sample_message_body)])].
Definition mixed_batch : pydict :=
  [("Messages", PList [PDict (message "rh-1" sample_message_body);
                       PDict (message "rh-2" invalid_body)])].

End Samples.

(* ===================================================================== *)
(** ** Record by record: what a batch amounts to                          *)
(* ===================================================================== *)

(** A summary of the loop of [lambda_handler] for records that are
    mappings, against which the handler is proved below. *)
Section Batch.

Variable environ : environment.

(** The text the loop appends to [errors] for [record], or [None] when
    the record is processed. *)
Definition record_error (record : pydict) : option string :=
  let message_id := str (dict_get "messageId" (PStr "unknown") record) in
  match dict_lookup "body" record with
  | None => Some ("Record missing 'body' field: " ++ message_id)
  | Some message_body =>
      match process_sqs_message message_body (datamap environ) with
      | Ok _ => None
      | Raise ex =>
          Some ("Error processing message " ++ message_id ++ ": " ++ exn_str ex)
      end
  end.

(** The tally after one more record. *)
Definition tally (r : response) (record : pydict) : response :=
  match record_error record with
  | None => incr_processed r
  | Some e => append_error e (incr_failed r)
  end.

(** The errors of a batch, in the order of its records. *)
Definition batch_errors (records : list pydict) : list string :=
  flat_map (fun record => match record_error record with
                          | Some e => [e]
                          | None => []
                          end) records.

End Batch.

(** From [r] to [r'] the status code is left alone and the counters do not
    go down. *)
Definition grows (r r' : response) : Prop :=
  statusCode r' = statusCode r
  /\ (processed r <= processed r')%Z /\ (failed r <= failed r')%Z.

Definition is_mapping (v : pyval) : bool :=
  match v with PDict _ => true | _ => false end.

(** An event as the queue trigger builds it: [Records], when there, is a
    list of mappings. *)
Definition well_formed (event : pydict) : bool :=
  match dict_lookup "Records" event with
  | None => true
  | Some (PList records) => forallb is_mapping records
  | Some _ => false
  end.

(** The mapping behind a record. *)
Definition mapping_of (v : pyval) : pydict :=
  match v with PDict d => d | _ => [] end.

(* ===================================================================== *)
(** ** The shutdown flag                                                  *)
(* ===================================================================== *)

(** [SHUTDOWN_REQUESTED[0]] is a [bool]; [signal_handler(signum, frame)]
    sets it. *)
Definition signal_handler (shutdown_requested : bool) : bool := true.

(** When, in a turn of the [while] loop, a signal is delivered: not at
    all; before the handler of a failed fetch reads the flag (at any time,
    in a turn whose fetch does not fail); or after that read. *)
Inductive signal : Type :=
| Quiet
| Early
| Late.

(** One turn of the loop as the world plays it: what [receive_message]
    does, and the signal delivered before the turn is over. *)
Record turn : Type := mkTurn {
  received : result pyval;
  signalled : signal
}.

Definition is_signalled (t : turn) : bool :=
  match signalled t with
  | Quiet => false
  | _ => true
  end.

(** How far the loop got on a finite list of turns. *)
Inductive loop_end : Type :=
| Left_loop                 (* the loop was left and main goes on to return *)
| Escaped (e : exn)         (* an exception left the loop *)
| Still_polling.            (* the turns ran out with the flag not set *)

Section Shutdown.

Variable environ : environment.
Variable service : queue_service.

(** [while not SHUTDOWN_REQUESTED[0]: ...] with the flag as state, and the
    seconds spent in [time.sleep].  The flag is read at the top of each
    turn and, when the turn has raised an [Exception], once more before
    the pause: [if not SHUTDOWN_REQUESTED[0]: time.sleep(5)]. *)
Fixpoint serve (queue_url : pyval) (turns : list turn)
  (shutdown_requested : bool) (p : poller) (slept : Z)
  : poller * Z * loop_end :=
  if shutdown_requested then (p, slept, Left_loop)
  else
    match turns with
    | [] => (p, slept, Still_polling)
    | t :: later =>
        (* the flag as the handler of the exception and as the next turn
           find it *)
        let at_handler :=
          match signalled t with
          | Early => signal_handler shutdown_requested
          | _ => shutdown_requested
          end in
        let at_end :=
          match signalled t with
          | Quiet => shutdown_requested
          | _ => signal_handler shutdown_requested
          end in
        match poll_once environ service queue_url (received t) p with
        | (p', Ok _) => serve queue_url later at_end p' slept
        | (p', Raise e) =>
            if isinstance e KeyboardInterrupt then (p', slept, Left_loop)
            else if isinstance e Exception then
              serve queue_url later at_end p'
                (if at_handler then slept else slept + 5)%Z
            else (p', slept, Escaped e)
        end
    end.

End Shutdown.

(** The turns up to and including the first one in which a signal is
    delivered. *)
Fixpoint heard (turns : list turn) : list turn :=
  match turns with
  | [] => []
  | t :: later => if is_signalled t then [t] else t :: heard later
  end.

(** From [p] to [p'] the poller has made the deletion calls [calls] and
    has not counted more messages as processed than it made calls; no
    counter went down. *)
Definition advanced (p p' : poller) (calls : list pyval) : Prop :=
  delete_calls p' = (delete_calls p ++ calls)%list
  /\ (processed_count p <= processed_count p')%Z
  /\ (processed_count p' <= processed_count p + Z.of_nat (length calls))%Z
  /\ (failed_count p <= failed_count p')%Z.

(** A service whose deletions raise nothing outside [Exception]. *)
Definition deletes_ordinarily (service : queue_service) : Prop :=
  forall calls queue_url receipt_handle e,
    delete_response service calls queue_url receipt_handle = Raise e ->
    isinstance e Exception = true.

(** A character [int] has a use for: a digit, a space, a sign or an
    underscore; and whether a text has a character of another kind. *)
Definition int_char (c : ascii) : bool :=
  Json.is_digit c || is_space c || Ascii.eqb c "-"%char
  || Ascii.eqb c "+"%char || Ascii.eqb c "_"%char.

Fixpoint has_stray (s : string) : bool :=
  match s with
  | String c t => negb (int_char c) || has_stray t
  | EmptyString => false
  end.

(** Whether a text has an ASCII character [int] has no use for. *)
Fixpoint has_ascii_stray (s : string) : bool :=
  match s with
  | String c t =>
      ((N_of_ascii c <? 128)%N && negb (int_char c)) || has_ascii_stray t
  | EmptyString => false
  end.

(** A message as the service delivers it: a mapping with a receipt
    handle. *)
Definition is_message (v : pyval) : bool :=
  match v with
  | PDict d => dict_mem "ReceiptHandle" d
  | _ => false
  end.

(* ===================================================================== *)
(** ** Properties of the decoder                                          *)
(* ===================================================================== *)

Module JsonFacts.
Import Json.

(** Decoding raises nothing outside the [Exception] hierarchy. *)
Definition ordinary (f : failure) : Prop :=
  match f with
  | DecodeError _ _ => True
  | Other e => isinstance e Exception = true
  end.

Lemma scanstring_ordinary (fuel : nat) :
  forall s idx start acc f,
    scanstring fuel s idx start acc = Fail f -> ordinary f.
Proof.
  induction fuel as [|fuel IH]; intros s idx start acc f; cbn [scanstring].
  - discriminate.
  - repeat match goal with
           | |- context [match ?x with _ => _ end] => destruct x eqn:?
           end;
      try discriminate; try (intros [= <-]; exact I); try (apply IH).
Qed.

Lemma parse_int_ordinary neg ds e :
  parse_int neg ds = Raise e -> isinstance e Exception = true.
Proof.
  unfold parse_int. destruct (_ <? _)%nat; [|discriminate].
  intros [= <-]. reflexivity.
Qed.

Lemma match_number_ordinary s start f :
  match_number s start = Fail f -> ordinary f.
Proof.
  unfold match_number.
  repeat match goal with
         | |- context [match ?x with _ => _ end] => destruct x eqn:?
         end;
    try discriminate; intros [= <-]; cbn; eauto using parse_int_ordinary.
Qed.

Lemma map_scan_fail {A B : Type} (g : A -> B) (r : scan A) f :
  map_scan g r = Fail f -> r = Fail f.
Proof. destruct r; cbn; congruence. Qed.

Lemma scan_ordinary (fuel : nat) :
  (forall depth s idx f, scan_once fuel depth s idx = Fail f -> ordinary f)
  /\ (forall depth s idx acc f,
         parse_object fuel depth s idx acc = Fail f -> ordinary f)
  /\ (forall depth s idx acc f,
         parse_array fuel depth s idx acc = Fail f -> ordinary f).
Proof.
  induction fuel as [|fuel (IHv & IHo & IHa)].
  - repeat split; intros; discriminate.
  - repeat split.
    + intros depth s idx f. cbn [scan_once].
      repeat match goal with
             | |- context [match ?x with _ => _ end] => destruct x eqn:?
             end;
        try discriminate;
        try (intros [= <-]; reflexivity);
        try (intros H; apply map_scan_fail in H;
             eapply scanstring_ordinary; exact H);
        try (apply IHo); try (apply IHa); try (apply match_number_ordinary).
    + intros depth s idx acc f. cbn [parse_object].
      repeat match goal with
             | |- context [match ?x with _ => _ end] => destruct x eqn:?
             end;
        try discriminate;
        try (intros [= <-]; first [exact I | eapply scanstring_ordinary; eassumption
                                   | eapply IHv; eassumption]);
        try (apply IHo).
    + intros depth s idx acc f. cbn [parse_array].
      repeat match goal with
             | |- context [match ?x with _ => _ end] => destruct x eqn:?
             end;
        try discriminate;
        try (intros [= <-]; first [exact I | eapply IHv; eassumption]);
        try (apply IHa).
Qed.

(** *** The fuel of [loads] is never used up *)

Lemma skip_whitespace_length s : forall i r j,
  skip_whitespace s i = (r, j) -> String.length r <= String.length s.
Proof.
  induction s as [|c t IH]; cbn; intros i r j.
  - intros [= <- _]. cbn. lia.
  - destruct (is_whitespace c).
    + intros H. apply IH in H. lia.
    + intros [= <- _]. cbn. lia.
Qed.

Lemma span_digits_length s : forall ds r,
  span_digits s = (ds, r) -> String.length s = String.length ds + String.length r.
Proof.
  induction s as [|c t IH]; cbn; intros ds r.
  - intros [= <- <-]. reflexivity.
  - destruct (is_digit c).
    + destruct (span_digits t) as [ds' r'] eqn:E. intros [= <- <-].
      cbn. rewrite (IH _ _ eq_refl). reflexivity.
    + intros [= <- <-]. reflexivity.
Qed.

Lemma is_prefix_drop p : forall s,
  is_prefix p s = true ->
  String.length (drop (String.length p) s) + String.length p = String.length s.
Proof.
  induction p as [|a p IH]; intros [|b s]; cbn; try discriminate; try lia.
  intros H. apply andb_prop in H as [_ H]. apply IH in H. lia.
Qed.

Lemma hex4_length s u r : hex4 s = Some (u, r) -> String.length s = 4 + String.length r.
Proof.
  unfold hex4. destruct s as [|a [|b [|c [|d t]]]]; try discriminate.
  destruct (hexval a), (hexval b), (hexval c), (hexval d); try discriminate.
  intros [= _ <-]. reflexivity.
Qed.

Lemma drop_length n : forall s, String.length (drop n s) <= String.length s.
Proof.
  induction n as [|n IH]; intros [|c s]; cbn; try lia.
  specialize (IH s). lia.
Qed.

(** Collect what the equations in the context say about lengths. *)
Ltac lengths :=
  repeat match goal with
         | H : _ && _ = true |- _ => apply andb_prop in H as [? ?]
         | H : hex4 (drop ?n ?s) = Some (_, _) |- _ =>
             apply hex4_length in H; pose proof (drop_length n s)
         | H : skip_whitespace _ _ = (_, _) |- _ => apply skip_whitespace_length in H
         | H : span_digits _ = (_, _) |- _ => apply span_digits_length in H
         | H : hex4 _ = Some (_, _) |- _ => apply hex4_length in H
         | H : is_prefix _ _ = true |- _ => apply is_prefix_drop in H
         | H : (if (_ <? _)%nat then None else hex4 _) = Some _ |- _ =>
             let E := fresh in
             destruct (_ <? _)%nat eqn:E in H; [discriminate H|]
         end;
  cbn [String.length drop] in *.

Ltac split_matches :=
  repeat match goal with
         | |- context [match ?x with _ => _ end] => destruct x eqn:?
         end.

Lemma scanstring_shrinks (fuel : nat) :
  forall s idx start acc a r i,
    scanstring fuel s idx start acc = Scanned a r i ->
    String.length r < String.length s.
Proof.
  induction fuel as [|fuel IH]; intros s idx start acc a r i; cbn [scanstring].
  - discriminate.
  - split_matches; try discriminate;
      try (intros [= _ <- _]; lengths; lia);
      intros H; apply IH in H; lengths; lia.
Qed.

Lemma scanstring_fuel (fuel : nat) :
  forall s idx start acc,
    String.length s < fuel -> scanstring fuel s idx start acc <> Exhausted.
Proof.
  induction fuel as [|fuel IH]; intros s idx start acc Hlen; [lia|].
  cbn [scanstring].
  split_matches; try discriminate; apply IH; lengths; lia.
Qed.

Lemma number_sign_length s neg r :
  number_sign s = (neg, r) -> String.length r <= String.length s.
Proof.
  unfold number_sign. destruct s as [|c t]; [|destruct (Ascii.eqb c _)];
    intros [= _ <-]; cbn; lia.
Qed.

Lemma number_int_length s ip r :
  number_int s = Some (ip, r) -> String.length r < String.length s.
Proof.
  unfold number_int. destruct s as [|c t]; [discriminate|].
  destruct (Ascii.eqb c _); [intros [= _ <-]; cbn; lia|].
  destruct (is_digit c); [|discriminate].
  destruct (span_digits t) as [ds r'] eqn:E. intros [= _ <-].
  apply span_digits_length in E. cbn. lia.
Qed.

Lemma number_frac_length s f r :
  number_frac s = (f, r) -> String.length r <= String.length s.
Proof.
  unfold number_frac. destruct s as [|p [|d t]]; try (intros [= _ <-]; lia).
  destruct (_ && _); [|intros [= _ <-]; lia].
  destruct (span_digits t) as [fs r'] eqn:E. intros [= _ <-].
  apply span_digits_length in E. cbn. lia.
Qed.

Lemma number_exp_length s x r :
  number_exp s = (x, r) -> String.length r <= String.length s.
Proof.
  unfold number_exp. destruct s as [|e t]; [intros [= _ <-]; lia|].
  destruct (_ || _); [|intros [= _ <-]; lia].
  destruct (match t with EmptyString => _ | String _ _ => _ end)
    as [sign t'] eqn:Et.
  assert (String.length t' <= String.length t) as Ht.
  { destruct t as [|sg u]; [injection Et as _ <-; lia|].
    destruct (_ || _); injection Et as _ <-; cbn; lia. }
  destruct (span_digits t') as [es r'] eqn:E. apply span_digits_length in E.
  destruct es; intros [= _ <-]; cbn in *; lia.
Qed.

Lemma match_number_shrinks s start v r i :
  match_number s start = Scanned v r i -> String.length r < String.length s.
Proof.
  unfold match_number.
  destruct (number_sign s) as [neg s1] eqn:E1. apply number_sign_length in E1.
  destruct (number_int s1) as [[ip r0]|] eqn:E2; [|discriminate].
  apply number_int_length in E2.
  destruct (number_frac r0) as [frac r1] eqn:E3. apply number_frac_length in E3.
  destruct (number_exp r1) as [exp r2] eqn:E4. apply number_exp_length in E4.
  split_matches; try discriminate; intros [= _ <- _]; lia.
Qed.

Lemma match_number_fuel s start : match_number s start <> Exhausted.
Proof. unfold match_number. split_matches; discriminate. Qed.

Lemma map_scan_scanned {A B : Type} (g : A -> B) (x : scan A) b r i :
  map_scan g x = Scanned b r i -> exists a, x = Scanned a r i.
Proof. destruct x; cbn; try discriminate. intros [= _ <- <-]. eauto. Qed.

Lemma scan_shrinks (fuel : nat) :
  (forall depth s idx v r i,
      scan_once fuel depth s idx = Scanned v r i ->
      String.length r < String.length s)
  /\ (forall depth s idx acc v r i,
         parse_object fuel depth s idx acc = Scanned v r i ->
         String.length r < String.length s)
  /\ (forall depth s idx acc v r i,
         parse_array fuel depth s idx acc = Scanned v r i ->
         String.length r < String.length s).
Proof.
  induction fuel as [|fuel (IHv & IHo & IHa)].
  - repeat split; intros; discriminate.
  - repeat split.
    + intros depth s idx v r i. cbn [scan_once].
      split_matches; try discriminate;
        try (intros [= _ <- _]; lengths; lia);
        try (intros H; apply map_scan_scanned in H as [? H];
             apply scanstring_shrinks in H; lengths; lia);
        try (intros H; apply IHo in H; lengths; lia);
        try (intros H; apply IHa in H; lengths; lia);
        try (intros H; apply match_number_shrinks in H; lengths; lia).
    + intros depth s idx acc v r i. cbn [parse_object].
      split_matches; try discriminate;
        repeat match goal with
               | H : scanstring _ _ _ _ _ = Scanned _ _ _ |- _ =>
                   apply scanstring_shrinks in H
               | H : scan_once _ _ _ _ = Scanned _ _ _ |- _ => apply IHv in H
               end;
        try (intros [= _ <- _]; lengths; lia);
        try (intros H; apply IHo in H; lengths; lia).
    + intros depth s idx acc v r i. cbn [parse_array].
      split_matches; try discriminate;
        repeat match goal with
               | H : scan_once _ _ _ _ = Scanned _ _ _ |- _ => apply IHv in H
               end;
        try (intros [= _ <- _]; lengths; lia);
        try (intros H; apply IHa in H; lengths; lia).
Qed.

Lemma scan_fuel (fuel : nat) :
  (forall depth s idx,
      2 * String.length s + 1 <= fuel -> scan_once fuel depth s idx <> Exhausted)
  /\ (forall depth s idx acc,
         2 * String.length s + 2 <= fuel ->
         parse_object fuel depth s idx acc <> Exhausted)
  /\ (forall depth s idx acc,
         2 * String.length s + 2 <= fuel ->
         parse_array fuel depth s idx acc <> Exhausted).
Proof.
  induction fuel as [|fuel (IHv & IHo & IHa)].
  - repeat split; intros; lia.
  - repeat split.
    + intros depth s idx Hlen. cbn [scan_once].
      split_matches; try discriminate;
        try (intros H; destruct (scanstring _ _ _ _ _) eqn:E in H;
             try discriminate H;
             apply scanstring_fuel in E; [exact E | lia]);
        try (apply IHo; lengths; lia);
        try (apply IHa; lengths; lia);
        try (apply match_number_fuel).
    + intros depth s idx acc Hlen. cbn [parse_object].
      split_matches; try discriminate;
        repeat match goal with
               | H : scanstring _ _ _ _ _ = Scanned _ _ _ |- _ =>
                   apply scanstring_shrinks in H
               | H : scan_once _ _ _ _ = Scanned _ _ _ |- _ =>
                   apply (proj1 (scan_shrinks _)) in H
               end;
        try (apply IHo; lengths; lia);
        try (intros _;
             match goal with
             | H : scanstring _ _ _ _ _ = Exhausted |- _ =>
                 apply scanstring_fuel in H; [exact H | lengths; lia]
             | H : scan_once _ _ _ _ = Exhausted |- _ =>
                 apply IHv in H; [exact H | lengths; lia]
             end).
    + intros depth s idx acc Hlen. cbn [parse_array].
      split_matches; try discriminate;
        repeat match goal with
               | H : scan_once _ _ _ _ = Scanned _ _ _ |- _ =>
                   apply (proj1 (scan_shrinks _)) in H
               end;
        try (apply IHa; lengths; lia);
        try (intros _;
             match goal with
             | H : scan_once _ _ _ _ = Exhausted |- _ =>
                 apply IHv in H; [exact H | lengths; lia]
             end).
Qed.

(** With [loads_fuel], scanning a text never stops for lack of fuel. *)
Lemma loads_fuel_enough (s : string) :
  let (s1, i1) := skip_whitespace s 0 in
  scan_once (loads_fuel s) recursion_limit s1 i1 <> Exhausted.
Proof.
  destruct (skip_whitespace s 0) as [s1 i1] eqn:E.
  apply (proj1 (scan_fuel _)). apply skip_whitespace_length in E.
  unfold loads_fuel. lia.
Qed.

(** Whatever [json.loads] raises is an [Exception]. *)
Lemma loads_raises_exception v ex :
  loads v = Raise ex -> isinstance ex Exception = true.
Proof.
  unfold loads. destruct v; try (intros [= <-]; reflexivity).
  destruct (is_prefix bom s); [intros [= <-]; reflexivity|].
  destruct (skip_whitespace s 0) as [s1 i1].
  destruct (scan_once _ _ _ _) as [obj r i|i|[msg pos|e]|] eqn:E.
  - destruct (skip_whitespace r i) as [[|c r'] i']; [discriminate|].
    intros [= <-]. reflexivity.
  - intros [= <-]. reflexivity.
  - intros [= <-]. reflexivity.
  - intros [= <-]. apply (proj1 (scan_ordinary _)) in E. exact E.
  - intros [= <-]. reflexivity.
Qed.

End JsonFacts.

(* ===================================================================== *)
(** ** The validator                                                      *)
(* ===================================================================== *)

Section ValidatorFacts.

Variable cb_datamap : pydict.

(** What the validator raises, by case. *)
Lemma process_sqs_message_load_error body ex :
  Json.loads body = Raise ex ->
  process_sqs_message body cb_datamap
  = Raise (mkExn Exception ("[Data Load Error] [" ++ exn_str ex ++ "]")).
Proof.
  intros H. unfold process_sqs_message. rewrite H.
  rewrite (JsonFacts.loads_raises_exception _ _ H). reflexivity.
Qed.

Lemma process_sqs_message_loaded body v :
  Json.loads body = Ok v ->
  process_sqs_message body cb_datamap
  = match contains "data" v with
    | Raise ex => Raise ex
    | Ok true => Ok tt
    | Ok false => Raise (mkExn ValueError "Message missing 'data' field")
    end.
Proof. intros H. unfold process_sqs_message. rewrite H. reflexivity. Qed.

(** The classes of the exceptions that leave the validator. *)
Lemma process_sqs_message_raises body e :
  process_sqs_message body cb_datamap = Raise e ->
  exn_cls e = Exception \/ exn_cls e = ValueError \/ exn_cls e = TypeError.
Proof.
  destruct (Json.loads body) as [v|ex] eqn:E.
  - rewrite (process_sqs_message_loaded _ _ E).
    destruct v; cbn; try (intros [= <-]; auto);
      match goal with |- context [if ?b then _ else _] => destruct b end;
      try discriminate; intros [= <-]; auto.
  - rewrite (process_sqs_message_load_error _ _ E). intros [= <-]. auto.
Qed.

Lemma process_sqs_message_raises_exception body e :
  process_sqs_message body cb_datamap = Raise e ->
  isinstance e Exception = true /\ isinstance e JSONDecodeError = false.
Proof.
  intros H. apply process_sqs_message_raises in H.
  unfold isinstance. destruct H as [-> | [-> | ->]]; split; reflexivity.
Qed.

Lemma contains_true_cases k v :
  contains k v = Ok true <->
  (exists d, v = PDict d /\ dict_mem k d = true)
  \/ (exists items, v = PList items /\ existsb (pyval_eqb (PStr k)) items = true)
  \/ (exists s, v = PStr s /\ contains_substring k s = true).
Proof.
  split.
  - destruct v; cbn; try discriminate; intros [= H]; eauto 6.
  - intros [(d & -> & H) | [(l & -> & H) | (s & -> & H)]]; cbn; rewrite H;
      reflexivity.
Qed.

(** The validator returns normally exactly when the body decodes and the
    membership test holds of the decoded value. *)
Lemma process_sqs_message_ok_iff_contains (body : pyval) :
  process_sqs_message body cb_datamap = Ok tt <->
  exists v, Json.loads body = Ok v /\ contains "data" v = Ok true.
Proof.
  split.
  - destruct (Json.loads body) as [v|ex] eqn:E.
    + rewrite (process_sqs_message_loaded _ _ E). intros H. exists v.
      split; [reflexivity|].
      destruct (contains "data" v) as [[|]|]; try discriminate. reflexivity.
    + rewrite (process_sqs_message_load_error _ _ E). discriminate.
  - intros (v & E & H).
    rewrite (process_sqs_message_loaded _ _ E), H. reflexivity.
Qed.

(** The same, with the membership test spelled out: the decoded value is an
    object with the key [data] (whatever its value), an array with the
    string "data" among its items, or a string in which "data" occurs. *)
Lemma process_sqs_message_accepts_iff (body : pyval) :
  process_sqs_message body cb_datamap = Ok tt <->
  exists v, Json.loads body = Ok v /\
    ((exists d, v = PDict d /\ dict_mem "data" d = true)
     \/ (exists items, v = PList items
                       /\ existsb (pyval_eqb (PStr "data")) items = true)
     \/ (exists s, v = PStr s /\ contains_substring "data" s = true)).
Proof.
  rewrite process_sqs_message_ok_iff_contains.
  split; intros (v & E & H); exists v; (split; [exact E|]);
    apply contains_true_cases; exact H.
Qed.

(** C4: what the code does.  The validator tests ['data' in message_data]
    without checking that [message_data] is a mapping, so a body that
    decodes to an array with the string "data" among its items, or to a
    string in which "data" occurs, is accepted although the decoded value is
    no object and has no key [data]. *)
Theorem process_sqs_message_accepts_non_object (body v : pyval) :
  Json.loads body = Ok v ->
  ((exists items, v = PList items
                  /\ existsb (pyval_eqb (PStr "data")) items = true)
   \/ (exists s, v = PStr s /\ contains_substring "data" s = true)) ->
  process_sqs_message body cb_datamap = Ok tt
  /\ (forall d, v <> PDict d).
Proof.
  intros E H. split.
  - apply process_sqs_message_ok_iff_contains. exists v. split; [exact E|].
    apply contains_true_cases. right. exact H.
  - destruct H as [(items & -> & _) | (s & -> & _)]; discriminate.
Qed.

(** The two ways the validator is meant to fail.  A body that does not
    decode makes it raise a plain [Exception] whose text is the marker
    "[Data Load Error]" followed by the decoder's description in brackets;
    a body that decodes to a value in which the test for [data] is false
    (an object without the key, an array without the item, a string without
    the text) makes it raise a [ValueError] saying that the field is
    missing.  A caller tells the two apart by class. *)
Lemma process_sqs_message_failure_modes (body : pyval) :
  (forall ex, Json.loads body = Raise ex ->
     exists e, process_sqs_message body cb_datamap = Raise e
       /\ exn_cls e = Exception
       /\ exn_str e = "[Data Load Error] [" ++ exn_str ex ++ "]"
       /\ contains_substring "Data Load Error" (exn_str e) = true
       /\ isinstance e ValueError = false)
  /\ (forall v, Json.loads body = Ok v -> contains "data" v = Ok false ->
        exists e, process_sqs_message body cb_datamap = Raise e
          /\ exn_cls e = ValueError
          /\ exn_str e = "Message missing 'data' field"
          /\ isinstance e ValueError = true).
Proof.
  split.
  - intros ex E. eexists. split; [apply process_sqs_message_load_error, E|].
    repeat split.
  - intros v E Hd. eexists. split.
    + rewrite (process_sqs_message_loaded _ _ E), Hd. reflexivity.
    + repeat split.
Qed.

(** C5: what the code does.  A body that decodes to [null], a boolean or a
    number has no key [data], but the validator does not raise its
    [ValueError] about the missing field: the test ['data' in message_data]
    itself raises, a [TypeError] whose text says nothing of the field. *)
Theorem process_sqs_message_scalar_body (body v : pyval) :
  Json.loads body = Ok v ->
  (v = PNone \/ (exists b, v = PBool b) \/ (exists z, v = PInt z)
   \/ (exists x, v = PFloat x)) ->
  exists e,
    process_sqs_message body cb_datamap = Raise e
    /\ exn_cls e = TypeError
    /\ exn_str e = "argument of type '" ++ type_name v ++ "' is not iterable"
    /\ isinstance e ValueError = false
    /\ contains_substring "data" (exn_str e) = false.
Proof.
  intros E H. rewrite (process_sqs_message_loaded _ _ E).
  destruct H as [-> | [(b & ->) | [(z & ->) | (x & ->)]]];
    eexists; (split; [reflexivity|]); repeat split.
Qed.

End ValidatorFacts.

(** An object with the key [data] is accepted whatever the value under the
    key, the empty mapping included. *)
Lemma process_sqs_message_data_present body dm d x :
  Json.loads body = Ok (PDict d) -> dict_lookup "data" d = Some x ->
  process_sqs_message body dm = Ok tt.
Proof.
  intros E H. apply process_sqs_message_ok_iff_contains. exists (PDict d).
  split; [exact E|]. cbn. unfold dict_mem. rewrite H. reflexivity.
Qed.

Lemma process_sqs_message_accepts_iff_witness :
  process_sqs_message Samples.empty_data_body [] = Ok tt.
Proof.
  apply (proj2 (process_sqs_message_accepts_iff [] Samples.empty_data_body)).
  exists (PDict [("data", PDict [])]). split; [vm_compute; reflexivity|].
  left. exists [("data", PDict [])]. split; reflexivity.
Defined.

(** The body [["data"]] is accepted although what it decodes to is an
    array, not an object with the key [data]. *)
Lemma process_sqs_message_accepts_array :
  process_sqs_message Samples.array_body [] = Ok tt
  /\ ~ (exists d, Json.loads Samples.array_body = Ok (PDict d)
                  /\ dict_mem "data" d = true).
Proof.
  split; [vm_compute; reflexivity|].
  intros (d & E & _). vm_compute in E. discriminate E.
Qed.

Lemma process_sqs_message_failure_modes_witness :
  (Json.loads Samples.invalid_body
   = Raise (mkExn JSONDecodeError "Expecting value: line 1 column 1 (char 0)")
   /\ process_sqs_message Samples.invalid_body []
      = Raise (mkExn Exception
                 "[Data Load Error] [Expecting value: line 1 column 1 (char 0)]"))
  /\ (Json.loads Samples.no_data_body = Ok (PDict [("metadata", PDict [])])
      /\ process_sqs_message Samples.no_data_body []
         = Raise (mkExn ValueError "Message missing 'data' field")).
Proof.
  split.
  - split; [vm_compute; reflexivity|].
    destruct (proj1 (process_sqs_message_failure_modes [] Samples.invalid_body)
                (mkExn JSONDecodeError "Expecting value: line 1 column 1 (char 0)"))
      as (e & -> & Hc & Hs & _); [vm_compute; reflexivity|].
    destruct e as [c m]; cbn in Hc, Hs. rewrite Hc, Hs. reflexivity.
  - split; [vm_compute; reflexivity|].
    destruct (proj2 (process_sqs_message_failure_modes [] Samples.no_data_body)
                (PDict [("metadata", PDict [])]))
      as (e & -> & Hc & Hs & _); [vm_compute; reflexivity | reflexivity |].
    destruct e as [c m]; cbn in Hc, Hs. rewrite Hc, Hs. reflexivity.
Defined.

(** The body [1] decodes and has no key [data], yet what the validator
    raises is a [TypeError] that does not mention the field. *)
Lemma process_sqs_message_number_body :
  Json.loads Samples.number_body = Ok (PInt 1)
  /\ process_sqs_message Samples.number_body []
     = Raise (mkExn TypeError "argument of type 'int' is not iterable")
  /\ ~ (exists e, process_sqs_message Samples.number_body [] = Raise e
                  /\ isinstance e ValueError = true
                  /\ contains_substring "data" (exn_str e) = true).
Proof.
  split; [vm_compute; reflexivity|]. split; [vm_compute; reflexivity|].
  intros (e & E & H & _). vm_compute in E. injection E as <-.
  vm_compute in H. discriminate H.
Qed.

Lemma process_sqs_message_accepts_non_object_witness :
  Json.loads Samples.array_body = Ok (PList [PStr "data"])
  /\ process_sqs_message Samples.array_body [] = Ok tt.
Proof.
  split; [vm_compute; reflexivity|].
  apply (process_sqs_message_accepts_non_object [] Samples.array_body
           (PList [PStr "data"])); [vm_compute; reflexivity|].
  left. exists [PStr "data"]. split; reflexivity.
Defined.

Lemma process_sqs_message_scalar_body_witness :
  Json.loads Samples.number_body = Ok (PInt 1)
  /\ exists e,
       process_sqs_message Samples.number_body [] = Raise e
       /\ exn_cls e = TypeError
       /\ exn_str e = "argument of type 'int' is not iterable".
Proof.
  split; [vm_compute; reflexivity|].
  destruct (process_sqs_message_scalar_body [] Samples.number_body (PInt 1))
    as (e & H & Hc & Hs & _); [vm_compute; reflexivity | |].
  - right. right. left. exists 1%Z. reflexivity.
  - exists e. repeat split; assumption.
Defined.

(* ===================================================================== *)
(** ** The batch handler                                                  *)
(* ===================================================================== *)

Section HandlerFacts.

Variable environ : environment.

(** One turn of the loop on a record that is a mapping. *)
Lemma record_step_mapping (record : pydict) (r : response) :
  record_step environ (PDict record) r = (tally environ r record, Ok tt).
Proof.
  unfold record_step, try_except, record_try, seq, eval, update, tally,
    record_error. cbn [contains getitem get]. unfold dict_mem.
  destruct (dict_lookup "body" record) as [message_body|]; cbn [negb].
  - destruct (process_sqs_message message_body (datamap environ)) as [[]|ex] eqn:E.
    + reflexivity.
    + cbn [select_clause].
      destruct (process_sqs_message_raises_exception _ _ _ E) as [-> _].
      reflexivity.
  - reflexivity.
Qed.

Lemma for_each_mappings (records : list pydict) : forall r,
  for_each (record_step environ) (map PDict records) r
  = (fold_left (tally environ) records r, Ok tt).
Proof.
  induction records as [|record records IH]; intros r; cbn [map for_each fold_left].
  - reflexivity.
  - unfold seq at 1. rewrite record_step_mapping. apply IH.
Qed.

(** What the tally holds after a batch. *)
Lemma fold_tally (records : list pydict) : forall r,
  let r' := fold_left (tally environ) records r in
  statusCode r' = statusCode r
  /\ errors r' = (errors r ++ batch_errors environ records)%list
  /\ failed r' = (failed r + Z.of_nat (length (batch_errors environ records)))%Z
  /\ (processed r' + failed r'
      = processed r + failed r + Z.of_nat (length records))%Z.
Proof.
  induction records as [|record records IH]; intros r; cbn zeta.
  - cbn. rewrite app_nil_r. repeat split; lia.
  - cbn [fold_left]. destruct (IH (tally environ r record)) as (Hs & He & Hf & Hp).
    rewrite Hp, Hs, He, Hf. unfold batch_errors. cbn [flat_map length].
    fold (batch_errors environ records). unfold tally.
    destruct (record_error environ record) as [e|]; cbn; repeat split;
      try rewrite <- app_assoc; try reflexivity; try lia.
Qed.

(** The handler on a list of mappings, in closed form. *)
Lemma lambda_handler_mappings (event : pydict) (context : pyval)
  (records : list pydict) :
  dict_lookup "Records" event = Some (PList (map PDict records)) ->
  lambda_handler environ event context
  = Ok (set_status
          (fold_left (tally environ) records (mkResponse 200 0 0 []))).
Proof.
  intros H. unfold lambda_handler, dict_mem. rewrite H. cbn [negb].
  unfold seq, eval. cbn [getitem]. rewrite H. cbn [bind iterate].
  rewrite for_each_mappings. reflexivity.
Qed.

Lemma set_status_fields (r : response) :
  processed (set_status r) = processed r
  /\ failed (set_status r) = failed r
  /\ errors (set_status r) = errors r.
Proof.
  unfold set_status. destruct (failed r >? 0)%Z; cbn; [|auto].
  destruct (processed r =? 0)%Z; cbn; auto.
Qed.

Lemma set_status_code (r : response) :
  statusCode r = 200%Z -> (0 <= processed r)%Z -> (0 <= failed r)%Z ->
  statusCode (set_status r)
  = if (failed r =? 0)%Z then 200%Z
    else if (processed r =? 0)%Z then 500%Z else 207%Z.
Proof.
  intros Hs Hp Hf. unfold set_status.
  destruct (Z.gtb_spec (failed r) 0) as [Hg|Hg].
  - destruct (Z.eqb_spec (failed r) 0); [lia|]. cbn.
    destruct (processed r =? 0)%Z; reflexivity.
  - destruct (Z.eqb_spec (failed r) 0); [exact Hs | lia].
Qed.

(** A list of mappings, read back from its items. *)
Lemma mappings_of_items (items : list pyval) :
  forallb is_mapping items = true -> items = map PDict (map mapping_of items).
Proof.
  induction items as [|v items IH]; cbn; [reflexivity|].
  intros H. apply andb_prop in H as [Hv H]. rewrite <- (IH H).
  destruct v; try discriminate. reflexivity.
Qed.

(** A turn of the loop, on any record, makes the tally grow. *)
Lemma record_try_grows (record : pyval) (r r' : response) (x : result unit) :
  record_try environ record r = (r', x) -> grows r r'.
Proof.
  unfold record_try, seq, eval, update, grows.
  destruct (contains "body" record) as [[|]|]; cbn [negb];
    repeat match goal with
           | |- context [match ?x with _ => _ end] => destruct x
           end;
    intros [= <- _]; cbn; repeat split; lia.
Qed.

Lemma record_except_grows (record : pyval) (ex : exn) (r r' : response)
  (x : result unit) :
  record_except record ex r = (r', x) -> grows r r'.
Proof.
  unfold record_except, seq, eval, update, grows.
  destruct (get record "messageId" (PStr "unknown"));
    intros [= <- _]; cbn; repeat split; lia.
Qed.

Lemma record_step_invariant (record : pyval) (r r' : response) (x : result unit) :
  record_step environ record r = (r', x) -> grows r r'.
Proof.
  unfold record_step, try_except.
  destruct (record_try environ record r) as [r1 [[]|ex]] eqn:E;
    apply record_try_grows in E.
  - intros [= <- _]. exact E.
  - cbn [select_clause]. destruct (isinstance ex Exception).
    + intros H. apply record_except_grows in H. unfold grows in *. intuition lia.
    + unfold eval. intros [= <- _]. exact E.
Qed.

Lemma for_each_invariant (items : list pyval) :
  forall (r r' : response) (x : result unit),
    for_each (record_step environ) items r = (r', x) -> grows r r'.
Proof.
  induction items as [|record items IH]; intros r r' x; cbn [for_each].
  - intros [= <- _]. unfold grows. repeat split; lia.
  - unfold seq at 1.
    destruct (record_step environ record r) as [r1 [[]|ex]] eqn:E;
      apply record_step_invariant in E.
    + intros H. apply IH in H. unfold grows in *. intuition lia.
    + intros [= <- _]. exact E.
Qed.

(** C1.  When the event has [Records] and the handler has gone through
    them all, the status is 200 if no record failed, 207 if some failed
    and some were processed, 500 if some failed and none was processed;
    the counters are not negative, so these cases are all there are.  An
    empty [Records] gives status 200 with nothing counted. *)
Theorem lambda_handler_status (event : pydict) (context : pyval) (resp : response) :
  dict_mem "Records" event = true ->
  lambda_handler environ event context = Ok resp ->
  (0 <= processed resp)%Z /\ (0 <= failed resp)%Z
  /\ (failed resp = 0%Z -> statusCode resp = 200%Z)
  /\ ((failed resp > 0)%Z -> (processed resp > 0)%Z -> statusCode resp = 207%Z)
  /\ ((failed resp > 0)%Z -> processed resp = 0%Z -> statusCode resp = 500%Z)
  /\ (dict_lookup "Records" event = Some (PList []) ->
      resp = mkResponse 200 0 0 []).
Proof.
  intros Hmem. unfold lambda_handler. rewrite Hmem. cbn [negb].
  unfold seq, eval.
  destruct (bind (getitem (PDict event) "Records") iterate) as [items|ex] eqn:Ei;
    [|discriminate].
  destruct (for_each (record_step environ) items _) as [r [[]|ex]] eqn:E;
    [|discriminate].
  intros [= <-]. pose proof E as E0. apply for_each_invariant in E. cbn in E.
  destruct E as (Hs & Hp & Hf).
  destruct (set_status_fields r) as (Ep & Ef & _). rewrite Ep, Ef.
  rewrite (set_status_code r Hs Hp Hf).
  repeat split; try assumption.
  - intros ->. reflexivity.
  - intros H1 H2. destruct (Z.eqb_spec (failed r) 0); [lia|].
    destruct (Z.eqb_spec (processed r) 0); [lia|reflexivity].
  - intros H1 ->. destruct (Z.eqb_spec (failed r) 0); [lia|]. reflexivity.
  - intros H. cbn [getitem] in Ei. rewrite H in Ei. cbn in Ei.
    injection Ei as <-. cbn in E0. injection E0 as <-. reflexivity.
Qed.

(** C6.  An event without [Records] is answered at once with status 400,
    nothing processed, nothing failed and one error; no record is looked
    at, whatever else the event holds. *)
Theorem lambda_handler_no_records (event : pydict) (context : pyval) :
  dict_mem "Records" event = false ->
  lambda_handler environ event context
  = Ok (mkResponse 400 0 0 ["No 'Records' found in event"]).
Proof.
  intros H. unfold lambda_handler. rewrite H. reflexivity.
Qed.

(** C8.  A record without a body raises nothing: the turn of the loop ends
    normally with one more failure and one more error, the text of which
    ends in the record's [messageId] (in "unknown" when it has none), and
    the loop goes on with the records after it. *)
Theorem record_step_missing_body (record : pydict) (r : response) :
  dict_mem "body" record = false ->
  let message_id := dict_get "messageId" (PStr "unknown") record in
  let r' :=
    append_error ("Record missing 'body' field: " ++ str message_id)
      (incr_failed r) in
  record_step environ (PDict record) r = (r', Ok tt)
  /\ failed r' = (failed r + 1)%Z
  /\ processed r' = processed r
  /\ errors r'
     = (errors r ++ [("Record missing 'body' field: " ++ str message_id)%string])%list
  /\ (dict_lookup "messageId" record = None -> message_id = PStr "unknown")
  /\ (forall m, dict_lookup "messageId" record = Some m -> message_id = m)
  /\ (forall rest,
        for_each (record_step environ) (PDict record :: rest) r
        = for_each (record_step environ) rest r').
Proof.
  intros H message_id r'.
  assert (record_step environ (PDict record) r = (r', Ok tt)) as Hstep.
  { rewrite record_step_mapping. unfold tally, record_error.
    unfold dict_mem in H. destruct (dict_lookup "body" record); [discriminate|].
    reflexivity. }
  repeat split; try assumption.
  - unfold message_id, dict_get. intros ->. reflexivity.
  - unfold message_id, dict_get. intros m ->. reflexivity.
  - intros rest. cbn [for_each]. unfold seq at 1. rewrite Hstep. reflexivity.
Qed.

(** C10.  On a [Records] list of mappings the handler returns a response
    in which every record is tallied once ([processed + failed] is the
    number of records), [errors] has one entry per failed record, and the
    entries are those of the failed records in the order of the records. *)
Theorem lambda_handler_tally (event : pydict) (context : pyval)
  (records : list pydict) :
  dict_lookup "Records" event = Some (PList (map PDict records)) ->
  exists resp,
    lambda_handler environ event context = Ok resp
    /\ (processed resp + failed resp = Z.of_nat (length records))%Z
    /\ Z.of_nat (length (errors resp)) = failed resp
    /\ errors resp = batch_errors environ records.
Proof.
  intros H. eexists. split; [apply lambda_handler_mappings, H|].
  destruct (set_status_fields
              (fold_left (tally environ) records (mkResponse 200 0 0 [])))
    as (-> & -> & ->).
  destruct (fold_tally records (mkResponse 200 0 0 [])) as (_ & -> & -> & ->).
  cbn. repeat split; lia.
Qed.

(** The records of a batch that fail. *)
Lemma batch_errors_In (records : list pydict) (record : pydict) (e : string) :
  In record records -> record_error environ record = Some e ->
  In e (batch_errors environ records).
Proof.
  intros Hin He. unfold batch_errors. apply in_flat_map.
  exists record. split; [exact Hin|]. rewrite He. left. reflexivity.
Qed.

Lemma batch_errors_length (records : list pydict) :
  length (batch_errors environ records) <= length records.
Proof.
  unfold batch_errors.
  induction records as [|record records IH]; cbn [flat_map length]; [lia|].
  rewrite length_app. destruct (record_error environ record); cbn; lia.
Qed.

(** C3 (as amended).  On an event whose [Records] is missing or is a list
    of mappings the handler returns a response, and no exception reaches
    the caller.  Every record that fails (no body, a body that does not
    decode, a body without [data], or anything else the validator raises)
    is counted in [failed], has its error among [errors], and keeps the
    status from being 200. *)
Theorem lambda_handler_returns (event : pydict) (context : pyval) :
  well_formed event = true ->
  exists resp,
    lambda_handler environ event context = Ok resp
    /\ forall items, dict_lookup "Records" event = Some (PList items) ->
         let records := map mapping_of items in
         failed resp = Z.of_nat (length (batch_errors environ records))
         /\ (forall record e,
               In record records -> record_error environ record = Some e ->
               In e (errors resp)
               /\ (statusCode resp = 207%Z \/ statusCode resp = 500%Z)).
Proof.
  unfold well_formed. intros Hwf.
  destruct (dict_lookup "Records" event) as [[| | | | |items|]|] eqn:E;
    try discriminate.
  - apply mappings_of_items in Hwf.
    assert (dict_lookup "Records" event
            = Some (PList (map PDict (map mapping_of items)))) as E'
      by (rewrite <- Hwf; exact E).
    exists (set_status (fold_left (tally environ) (map mapping_of items)
                          (mkResponse 200 0 0 []))).
    split; [apply lambda_handler_mappings, E'|].
    intros items' [= <-]. cbn zeta.
    set (r := fold_left _ _ _).
    destruct (set_status_fields r) as (Ep & Ef & Ee). rewrite Ef, Ee.
    destruct (fold_tally (map mapping_of items) (mkResponse 200 0 0 []))
      as (Hs & He & Hf & Hp). fold r in Hs, He, Hf, Hp. cbn in Hs, He, Hf, Hp.
    split; [lia|]. intros record e Hin Herr.
    pose proof (batch_errors_In _ _ _ Hin Herr) as Hb.
    split; [rewrite He; exact Hb|].
    assert (0 < length (batch_errors environ (map mapping_of items))) as Hpos.
    { destruct (batch_errors environ (map mapping_of items));
        [destruct Hb | cbn; lia]. }
    pose proof (batch_errors_length (map mapping_of items)) as Hle.
    rewrite length_map in Hle, Hp.
    assert (0 <= processed r)%Z as Hproc by lia.
    rewrite (set_status_code r Hs Hproc ltac:(lia)).
    destruct (Z.eqb_spec (failed r) 0); [lia|].
    destruct (processed r =? 0)%Z; auto.
  - exists (mkResponse 400 0 0 ["No 'Records' found in event"]).
    split; [|discriminate].
    unfold lambda_handler, dict_mem. rewrite E. reflexivity.
Qed.

End HandlerFacts.

(** The test of a partial success: one record processed, one failed. *)
Lemma lambda_handler_partial_event :
  lambda_handler [] Samples.partial_event PNone
  = Ok (mkResponse 207 1 1
          ["Error processing message m2: [Data Load Error] [Expecting value: line 1 column 1 (char 0)]"]).
Proof. vm_compute. reflexivity. Qed.

Lemma lambda_handler_status_witness :
  dict_mem "Records" Samples.partial_event = true
  /\ (exists resp, lambda_handler [] Samples.partial_event PNone = Ok resp
                   /\ (failed resp > 0)%Z /\ (processed resp > 0)%Z
                   /\ statusCode resp = 207%Z).
Proof.
  split; [reflexivity|]. eexists. split; [apply lambda_handler_partial_event|].
  split; [reflexivity|]. split; [reflexivity|].
  refine (proj1 (proj2 (proj2 (proj2
            (lambda_handler_status [] Samples.partial_event PNone _
               eq_refl lambda_handler_partial_event)))) _ _);
    reflexivity.
Defined.

Lemma lambda_handler_no_records_witness :
  dict_mem "Records" [] = false
  /\ lambda_handler [] [] PNone
     = Ok (mkResponse 400 0 0 ["No 'Records' found in event"]).
Proof.
  split; [reflexivity|]. apply (lambda_handler_no_records [] [] PNone).
  reflexivity.
Defined.

Lemma record_step_missing_body_witness :
  dict_mem "body" Samples.no_body_record = false
  /\ record_step [] (PDict Samples.no_body_record) (mkResponse 200 0 0 [])
     = (mkResponse 200 0 1 ["Record missing 'body' field: m1"], Ok tt).
Proof.
  split; [reflexivity|].
  apply (record_step_missing_body [] Samples.no_body_record
           (mkResponse 200 0 0 []) eq_refl).
Defined.

(** The test of a record without body: status 500, the error names the
    record. *)
Lemma lambda_handler_no_body_event :
  lambda_handler [] Samples.no_body_event PNone
  = Ok (mkResponse 500 0 1 ["Record missing 'body' field: m1"]).
Proof. vm_compute. reflexivity. Qed.

Lemma lambda_handler_tally_witness :
  dict_lookup "Records" Samples.partial_event
  = Some (PList (map PDict [Samples.valid_record; Samples.invalid_record]))
  /\ exists resp,
       lambda_handler [] Samples.partial_event PNone = Ok resp
       /\ (processed resp + failed resp = 2)%Z
       /\ Z.of_nat (length (errors resp)) = failed resp.
Proof.
  split; [reflexivity|].
  destruct (lambda_handler_tally [] Samples.partial_event PNone
              [Samples.valid_record; Samples.invalid_record] eq_refl)
    as (resp & H & Hsum & Hlen & _).
  exists resp. repeat split; assumption.
Defined.

Lemma lambda_handler_returns_witness :
  well_formed Samples.partial_event = true
  /\ exists resp, lambda_handler [] Samples.partial_event PNone = Ok resp.
Proof.
  split; [reflexivity|].
  destruct (lambda_handler_returns [] Samples.partial_event PNone eq_refl)
    as (resp & H & _).
  exists resp. exact H.
Defined.

(** C3 as stated fails: on an event whose [Records] is [None] the loop
    cannot start, and the [TypeError] reaches the caller. *)
Lemma lambda_handler_null_records :
  lambda_handler [] Samples.null_records_event PNone
  = Raise (mkExn TypeError "'NoneType' object is not iterable")
  /\ ~ (exists resp,
          lambda_handler [] Samples.null_records_event PNone = Ok resp).
Proof.
  split; [vm_compute; reflexivity|].
  intros (resp & H). vm_compute in H. discriminate H.
Qed.

(** So does a record that is not a mapping: the handler of the exception
    asks it for its [messageId] and raises in turn. *)
Lemma lambda_handler_record_not_mapping :
  lambda_handler [] [("Records", PList [PInt 5])] PNone
  = Raise (mkExn AttributeError "'int' object has no attribute 'get'").
Proof. vm_compute. reflexivity. Qed.

(* ===================================================================== *)
(** ** The local poller                                                   *)
(* ===================================================================== *)

Section PollerFacts.

Variable environ : environment.
Variable service : queue_service.

(** A message whose processing raises an [Exception] that is not a
    [JSONDecodeError], before [delete_message] is reached, is counted as
    failed and no deletion is asked for. *)
Lemma poll_message_not_deleted (queue_url : pyval) (message : pydict)
  (receipt_handle : pyval) (ex : exn) (p : poller) :
  dict_lookup "ReceiptHandle" message = Some receipt_handle ->
  bind (getitem (PDict message) "Body")
       (fun message_body => process_sqs_message message_body (datamap environ))
  = Raise ex ->
  isinstance ex JSONDecodeError = false ->
  isinstance ex Exception = true ->
  poll_message environ service queue_url (PDict message) p
  = (incr_failed_count p, Ok tt).
Proof.
  intros Hh Hraise Hj He.
  unfold poll_message, seq, eval, try_except.
  cbn [getitem get]. rewrite Hh.
  cbn [getitem bind] in Hraise.
  destruct (dict_lookup "Body" message) as [message_body|].
  - cbn [bind] in Hraise. rewrite Hraise. cbn [select_clause].
    rewrite Hj, He. reflexivity.
  - injection Hraise as <-. reflexivity.
Qed.

(** C2: what the code does.  A message whose body does not decode is
    counted as failed but [delete_message] is not called for it: the
    validator has wrapped the decoder's error in a plain [Exception], so it
    is the last [except] clause of the poller that runs, not the one for
    [JSONDecodeError] that deletes the message. *)
Theorem poll_message_parse_failure (queue_url : pyval) (message : pydict)
  (receipt_handle message_body : pyval) (ex : exn) (p : poller) :
  dict_lookup "ReceiptHandle" message = Some receipt_handle ->
  dict_lookup "Body" message = Some message_body ->
  Json.loads message_body = Raise ex ->
  let (p', outcome) := poll_message environ service queue_url (PDict message) p in
  outcome = Ok tt
  /\ delete_calls p' = delete_calls p
  /\ failed_count p' = (failed_count p + 1)%Z
  /\ processed_count p' = processed_count p.
Proof.
  intros Hh Hb Hl.
  rewrite (poll_message_not_deleted queue_url message receipt_handle
             (mkExn Exception ("[Data Load Error] [" ++ exn_str ex ++ "]")) p Hh).
  - repeat split.
  - cbn [getitem]. rewrite Hb. cbn [bind].
    apply process_sqs_message_load_error, Hl.
  - reflexivity.
  - reflexivity.
Qed.

(** C7.  A message whose processing fails otherwise than by a body that
    does not decode (it has no body, or the decoded body lacks [data], or
    the test for [data] itself raises) is counted as failed and
    [delete_message] is not called for it. *)
Theorem poll_message_failure_kept (queue_url : pyval) (message : pydict)
  (receipt_handle : pyval) (p : poller) :
  dict_lookup "ReceiptHandle" message = Some receipt_handle ->
  (dict_lookup "Body" message = None
   \/ exists message_body v,
        dict_lookup "Body" message = Some message_body
        /\ Json.loads message_body = Ok v
        /\ contains "data" v <> Ok true) ->
  let (p', outcome) := poll_message environ service queue_url (PDict message) p in
  outcome = Ok tt
  /\ delete_calls p' = delete_calls p
  /\ failed_count p' = (failed_count p + 1)%Z
  /\ processed_count p' = processed_count p.
Proof.
  intros Hh [Hb | (message_body & v & Hb & Hl & Hc)].
  - rewrite (poll_message_not_deleted queue_url message receipt_handle
               (mkExn KeyError (repr_str "Body")) p Hh).
    + repeat split.
    + cbn [getitem]. rewrite Hb. reflexivity.
    + reflexivity.
    + reflexivity.
  - destruct (process_sqs_message message_body (datamap environ))
      as [[]|ex] eqn:E.
    + exfalso. apply Hc.
      apply process_sqs_message_ok_iff_contains in E as (v' & Hl' & Hv).
      rewrite Hl in Hl'. injection Hl' as <-. exact Hv.
    + destruct (process_sqs_message_raises_exception _ _ _ E) as [He Hj].
      rewrite (poll_message_not_deleted queue_url message receipt_handle ex p Hh).
      * repeat split.
      * cbn [getitem]. rewrite Hb. exact E.
      * exact Hj.
      * exact He.
Qed.

(** What [get_sqs_client] asks for. *)
Lemma get_sqs_client_endpoint (url : option string)
  (region key secret : string) (client : sqs_client) :
  get_sqs_client service url region key secret = Ok client ->
  endpoint_url client
  = match url with
    | Some (String _ _) => url
    | _ => None
    end.
Proof.
  unfold get_sqs_client.
  destruct url as [[|c u]|]; cbn;
    destruct (client_error service _); try discriminate;
    intros [= <-]; reflexivity.
Qed.

(** C9 (as amended).  When [SQS_ENDPOINT_URL] is not set, the client of
    the poller is created with the endpoint [http://localhost:4566], the
    local emulator.  [get_sqs_client] leaves the endpoint out, which is the
    service's own (production) endpoint, if and only if it is given none or
    the empty string, and asks for the endpoint it is given otherwise; so
    the poller is on the production endpoint exactly when the variable is
    set to the empty string. *)
Theorem main_client_default_endpoint (cfg : config) (client : sqs_client) :
  read_config environ = Ok cfg ->
  main_client service cfg = Ok client ->
  (environ_lookup "SQS_ENDPOINT_URL" environ = None ->
   endpoint_url client = Some "http://localhost:4566")
  /\ (endpoint_url client = None
      <-> environ_lookup "SQS_ENDPOINT_URL" environ = Some EmptyString)
  /\ (forall url region key secret c,
        get_sqs_client service url region key secret = Ok c ->
        (endpoint_url c = None <-> (url = None \/ url = Some EmptyString))
        /\ (forall u, url = Some u -> u <> EmptyString ->
                      endpoint_url c = Some u)).
Proof.
  intros Hcfg Hclient.
  assert (endpoint_url client
          = match environ_lookup "SQS_ENDPOINT_URL" environ with
            | None => Some "http://localhost:4566"
            | Some EmptyString => None
            | Some url => Some url
            end) as Hend.
  { unfold read_config in Hcfg.
    destruct (int_of_str _) as [poll|]; [|discriminate].
    cbn [bind] in Hcfg.
    destruct (int_of_str _) as [vis|]; [|discriminate].
    injection Hcfg as <-. unfold main_client in Hclient. cbn in Hclient.
    apply get_sqs_client_endpoint in Hclient. rewrite Hclient.
    unfold environ_get_default.
    destruct (environ_lookup "SQS_ENDPOINT_URL" environ) as [[|c u]|];
      reflexivity. }
  split; [|split].
  - intros Henv. rewrite Hend, Henv. reflexivity.
  - rewrite Hend.
    destruct (environ_lookup "SQS_ENDPOINT_URL" environ) as [[|c u]|];
      split; intros H; try discriminate H; reflexivity.
  - intros url region key secret c H. apply get_sqs_client_endpoint in H.
    rewrite H. split.
    + destruct url as [[|a u]|]; split; intros H';
        try discriminate H'; auto;
        destruct H' as [H' | H']; discriminate H'.
    + intros u -> Hu. destruct u; [destruct Hu|]; reflexivity.
Qed.

End PollerFacts.

(** The poller on a message whose body is not JSON: one more failure, and
    no call of [delete_message], where the comment in the code and C2 want
    the message deleted. *)
Lemma poll_message_invalid_body :
  poll_message [] Samples.healthy_service (PStr "http://q/foo")
    (PDict (Samples.message "rh-1" Samples.invalid_body)) (mkPoller 0 0 [])
  = (mkPoller 0 1 [], Ok tt).
Proof. vm_compute. reflexivity. Qed.

(** A run of [main] that receives this one message ends with it counted as
    failed and still in the queue. *)
Lemma main_invalid_body :
  main [] Samples.healthy_service
    [Ok (PDict [("Messages",
                 PList [PDict (Samples.message "rh-1" Samples.invalid_body)])])]
  = Stopped (mkPoller 0 1 []).
Proof. vm_compute. reflexivity. Qed.

(** A valid message is deleted and counted as processed. *)
Lemma poll_message_valid_body :
  poll_message [] Samples.healthy_service (PStr "http://q/foo")
    (PDict (Samples.message "rh-1" Samples.sample_message_body)) (mkPoller 0 0 [])
  = (mkPoller 1 0 [PStr "rh-1"], Ok tt).
Proof. vm_compute. reflexivity. Qed.

Lemma poll_message_parse_failure_witness :
  Json.loads Samples.invalid_body
  = Raise (mkExn JSONDecodeError "Expecting value: line 1 column 1 (char 0)")
  /\ delete_calls
       (fst (poll_message [] Samples.healthy_service (PStr "http://q/foo")
               (PDict (Samples.message "rh-1" Samples.invalid_body))
               (mkPoller 0 0 [])))
     = [].
Proof.
  split; [vm_compute; reflexivity|].
  pose proof (poll_message_parse_failure [] Samples.healthy_service
                (PStr "http://q/foo") (Samples.message "rh-1" Samples.invalid_body)
                (PStr "rh-1") Samples.invalid_body
                (mkExn JSONDecodeError "Expecting value: line 1 column 1 (char 0)")
                (mkPoller 0 0 []) eq_refl eq_refl) as H.
  destruct (poll_message _ _ _ _ _) as [p' outcome].
  apply H. vm_compute. reflexivity.
Defined.

Lemma poll_message_failure_kept_witness :
  Json.loads Samples.no_data_body = Ok (PDict [("metadata", PDict [])])
  /\ poll_message [] Samples.healthy_service (PStr "http://q/foo")
       (PDict (Samples.message "rh-2" Samples.no_data_body)) (mkPoller 0 0 [])
     = (mkPoller 0 1 [], Ok tt).
Proof.
  split; [vm_compute; reflexivity|].
  pose proof (poll_message_failure_kept [] Samples.healthy_service
                (PStr "http://q/foo") (Samples.message "rh-2" Samples.no_data_body)
                (PStr "rh-2") (mkPoller 0 0 []) eq_refl) as H.
  destruct (poll_message _ _ _ _ _) as [[n f calls] outcome].
  destruct H as (-> & Hc & Hf & Hn).
  - right. exists Samples.no_data_body, (PDict [("metadata", PDict [])]).
    split; [reflexivity|]. split; [vm_compute; reflexivity|].
    cbn. discriminate.
  - cbn in Hc, Hf, Hn. rewrite Hc, Hf, Hn. reflexivity.
Defined.

(** C9 as stated fails: with [SQS_ENDPOINT_URL] not set the client is not
    on the default endpoint but on that of the local emulator. *)
Lemma main_client_unset_endpoint :
  environ_lookup "SQS_ENDPOINT_URL" [] = None
  /\ read_config [] = Ok Samples.default_config
  /\ main_client Samples.healthy_service Samples.default_config = Ok Samples.default_client
  /\ endpoint_url Samples.default_client <> None.
Proof.
  split; [reflexivity|]. split; [vm_compute; reflexivity|].
  split; [reflexivity|]. discriminate.
Qed.

Lemma main_client_default_endpoint_witness :
  environ_lookup "SQS_ENDPOINT_URL" [] = None
  /\ read_config [] = Ok Samples.default_config
  /\ main_client Samples.healthy_service Samples.default_config
     = Ok Samples.default_client
  /\ endpoint_url Samples.default_client = Some "http://localhost:4566".
Proof.
  split; [reflexivity|]. split; [vm_compute; reflexivity|].
  split; [reflexivity|].
  apply (proj1 (main_client_default_endpoint [] Samples.healthy_service
                  Samples.default_config Samples.default_client
                  ltac:(vm_compute; reflexivity) eq_refl)).
  reflexivity.
Defined.

(* ===================================================================== *)
(** ** Further properties of the validator and the batch handler          *)
(* ===================================================================== *)

(** X1.  A body that is not text (the record holds [None], a number, a list
    or a mapping under its body key) is a load error like any other: the
    validator raises the plain [Exception] whose text names the type of the
    body. *)
Theorem process_sqs_message_not_text (body : pyval) (dm : pydict) :
  (forall s, body <> PStr s) ->
  process_sqs_message body dm
  = Raise (mkExn Exception
             ("[Data Load Error] [the JSON object must be str, bytes or bytearray, not "
              ++ type_name body ++ "]")).
Proof.
  intros Hs.
  rewrite (process_sqs_message_load_error dm body
             (mkExn TypeError
                ("the JSON object must be str, bytes or bytearray, not "
                 ++ type_name body))).
  - reflexivity.
  - destruct body; try reflexivity. destruct (Hs s). reflexivity.
Qed.

Lemma process_sqs_message_not_text_witness :
  (forall s, PNone <> PStr s)
  /\ process_sqs_message PNone []
     = Raise (mkExn Exception
                "[Data Load Error] [the JSON object must be str, bytes or bytearray, not NoneType]").
Proof.
  split; [discriminate|].
  apply (process_sqs_message_not_text PNone []). discriminate.
Defined.

(** X2.  Whatever the validator raises is a plain [Exception], a
    [ValueError] or a [TypeError] made by the validator or by the test for
    [data]: the decoder's own [JSONDecodeError] never reaches the caller,
    and every failure is caught by [except Exception]. *)
Theorem process_sqs_message_never_decode_error (body : pyval) (dm : pydict)
  (e : exn) :
  process_sqs_message body dm = Raise e ->
  (exn_cls e = Exception \/ exn_cls e = ValueError \/ exn_cls e = TypeError)
  /\ isinstance e JSONDecodeError = false
  /\ isinstance e Exception = true.
Proof.
  intros H. split; [eapply process_sqs_message_raises, H|].
  destruct (process_sqs_message_raises_exception _ _ _ H). auto.
Qed.

Lemma process_sqs_message_never_decode_error_witness :
  process_sqs_message Samples.invalid_body []
  = Raise (mkExn Exception
             "[Data Load Error] [Expecting value: line 1 column 1 (char 0)]")
  /\ isinstance
       (mkExn Exception
          "[Data Load Error] [Expecting value: line 1 column 1 (char 0)]")
       JSONDecodeError = false.
Proof.
  split; [vm_compute; reflexivity|].
  apply (process_sqs_message_never_decode_error Samples.invalid_body []).
  vm_compute. reflexivity.
Defined.

Section HandlerMore.

Variable environ : environment.

(** A turn of the loop on a record that is not a mapping: the [try] block
    raises, and so does the handler of the exception when it asks the record
    for its [messageId]. *)
Lemma record_step_not_mapping (record : pyval) (r : response) :
  is_mapping record = false ->
  exists r',
    record_step environ record r
    = (r', Raise (mkExn AttributeError
                    ("'" ++ type_name record ++ "' object has no attribute 'get'"))).
Proof.
  intros H. unfold record_step, try_except, record_try, record_except, seq,
    eval, update.
  destruct record; try discriminate; cbn [contains get getitem negb type_name];
    try (cbn; eexists; reflexivity).
  - (* str *)
    destruct (contains_substring "body" s); cbn; eexists; reflexivity.
  - (* list *)
    destruct (existsb _ items); cbn; eexists; reflexivity.
Qed.

Lemma for_each_app {S A : Type} (body : A -> stmt S unit) (xs ys : list A) (s : S) :
  for_each body (xs ++ ys)%list s
  = match for_each body xs s with
    | (s', Ok _) => for_each body ys s'
    | (s', Raise e) => (s', Raise e)
    end.
Proof.
  revert s. induction xs as [|x xs IH]; intros s; cbn [app for_each].
  - reflexivity.
  - unfold seq. destruct (body x s) as [s1 [[]|e]]; [apply IH|reflexivity].
Qed.

(** The loop over any items: it ends normally exactly when all of them are
    mappings. *)
Lemma for_each_records_ok (items : list pyval) (r : response) :
  (exists r', for_each (record_step environ) items r = (r', Ok tt))
  <-> forallb is_mapping items = true.
Proof.
  revert r. induction items as [|record items IH]; intros r; cbn [for_each forallb].
  - split; [reflexivity|]. intros _. eexists. reflexivity.
  - unfold seq. destruct (is_mapping record) eqn:Hm.
    + destruct record; try discriminate. rewrite record_step_mapping.
      cbn [andb]. apply IH.
    + destruct (record_step_not_mapping record r Hm) as (r1 & ->).
      cbn [andb]. split; [intros (r' & H); discriminate H | discriminate].
Qed.

(** X3.  The handler returns a response exactly when [Records] is missing,
    or can be iterated and yields nothing but mappings; in every other case
    an exception reaches the caller. *)
Theorem lambda_handler_returns_iff (event : pydict) (context : pyval) :
  (exists resp, lambda_handler environ event context = Ok resp)
  <-> (dict_lookup "Records" event = None
       \/ exists records items,
            dict_lookup "Records" event = Some records
            /\ iterate records = Ok items
            /\ forallb is_mapping items = true).
Proof.
  unfold lambda_handler, dict_mem, seq, eval. cbn [getitem].
  destruct (dict_lookup "Records" event) as [records|] eqn:E; cbn [negb bind].
  - destruct (iterate records) as [items|ex] eqn:Ei.
    + destruct (for_each (record_step environ) items (mkResponse 200 0 0 []))
        as [r [[]|ex]] eqn:Ef.
      * split; [|intros _; eexists; reflexivity].
        intros _. right. exists records, items.
        split; [reflexivity|]. split; [exact Ei|].
        apply (for_each_records_ok items (mkResponse 200 0 0 [])).
        exists r. exact Ef.
      * split; [intros (resp & H); discriminate H|].
        intros [H | (records' & items' & [= <-] & Hi & Hall)]; [discriminate H|].
        rewrite Ei in Hi. injection Hi as <-.
        apply (for_each_records_ok items (mkResponse 200 0 0 [])) in Hall
          as (r' & Hr). rewrite Ef in Hr. discriminate Hr.
    + split; [intros (resp & H); discriminate H|].
      intros [H | (records' & items' & [= <-] & Hi & _)]; [discriminate H|].
      rewrite Ei in Hi. discriminate Hi.
  - split; [auto|]. intros _. eexists. reflexivity.
Qed.

(** X4.  When the records before the first one that is not a mapping are
    mappings, the exception that reaches the caller is the [AttributeError]
    raised for that record inside the [except] block; the records after it
    are never looked at. *)
Theorem lambda_handler_first_not_mapping (event : pydict) (context : pyval)
  (before : list pydict) (record : pyval) (after : list pyval) :
  dict_lookup "Records" event
  = Some (PList (map PDict before ++ record :: after)%list) ->
  is_mapping record = false ->
  lambda_handler environ event context
  = Raise (mkExn AttributeError
             ("'" ++ type_name record ++ "' object has no attribute 'get'")).
Proof.
  intros E Hm. unfold lambda_handler, dict_mem, seq, eval. cbn [getitem].
  rewrite E. cbn [negb bind iterate].
  rewrite for_each_app, for_each_mappings. cbn [for_each]. unfold seq.
  destruct (record_step_not_mapping record
              (fold_left (tally environ) before (mkResponse 200 0 0 [])) Hm)
    as (r' & ->).
  reflexivity.
Qed.

(** X5.  The status of a response is 200, 207, 400 or 500, and it is 400
    exactly when the event has no [Records]. *)
Theorem lambda_handler_status_codes (event : pydict) (context : pyval)
  (resp : response) :
  lambda_handler environ event context = Ok resp ->
  (statusCode resp = 200 \/ statusCode resp = 207
   \/ statusCode resp = 400 \/ statusCode resp = 500)%Z
  /\ (statusCode resp = 400%Z <-> dict_mem "Records" event = false).
Proof.
  unfold lambda_handler. destruct (dict_mem "Records" event) eqn:Hmem; cbn [negb].
  - unfold seq, eval.
    destruct (bind _ _) as [items|ex]; [|discriminate].
    destruct (for_each (record_step environ) items _) as [r [[]|ex]] eqn:E;
      [|discriminate].
    intros [= <-]. apply for_each_invariant in E. cbn in E.
    destruct E as (Hs & Hp & Hf).
    rewrite (set_status_code r Hs Hp Hf).
    destruct (failed r =? 0)%Z; [|destruct (processed r =? 0)%Z];
      (split; [auto | split; discriminate]).
  - intros [= <-]. cbn. split; [auto | split; reflexivity].
Qed.

(** X6.  Batches compose: the response to the records of two batches one
    after the other has the counts of the two responses added and their
    errors one after the other. *)
Theorem lambda_handler_concat (context : pyval) (records1 records2 : list pydict)
  (resp1 resp2 : response) :
  lambda_handler environ [("Records", PList (map PDict records1))] context
  = Ok resp1 ->
  lambda_handler environ [("Records", PList (map PDict records2))] context
  = Ok resp2 ->
  exists resp,
    lambda_handler environ
      [("Records", PList (map PDict (records1 ++ records2)%list))] context
    = Ok resp
    /\ processed resp = (processed resp1 + processed resp2)%Z
    /\ failed resp = (failed resp1 + failed resp2)%Z
    /\ errors resp = (errors resp1 ++ errors resp2)%list.
Proof.
  intros H1 H2.
  rewrite (lambda_handler_mappings environ
             [("Records", PList (map PDict records1))] context records1 eq_refl)
    in H1.
  rewrite (lambda_handler_mappings environ
             [("Records", PList (map PDict records2))] context records2 eq_refl)
    in H2.
  injection H1 as <-. injection H2 as <-.
  eexists.
  split; [apply (lambda_handler_mappings environ
                   [("Records", PList (map PDict (records1 ++ records2)%list))]
                   context (records1 ++ records2)%list eq_refl)|].
  repeat match goal with
         | |- context [set_status ?r] =>
             let Hp := fresh in let Hf := fresh in let He := fresh in
             destruct (set_status_fields r) as (Hp & Hf & He);
             rewrite ?Hp, ?Hf, ?He; clear Hp Hf He
         end.
  rewrite fold_left_app.
  pose proof (fold_tally environ records1 (mkResponse 200 0 0 [])) as T1.
  pose proof (fold_tally environ records2 (mkResponse 200 0 0 [])) as T2.
  pose proof (fold_tally environ records2
                (fold_left (tally environ) records1 (mkResponse 200 0 0 [])))
    as T12.
  cbn zeta in T1, T2, T12. cbn [statusCode processed failed errors] in T1, T2.
  destruct T1 as (_ & E1 & F1 & P1), T2 as (_ & E2 & F2 & P2),
    T12 as (_ & E12 & F12 & P12).
  cbn [app] in E1, E2. rewrite E12, F12, E1, E2, F1, F2.
  repeat split; try lia.
Qed.

(** X7.  A record with a body is decided by the validator alone: when the
    validator accepts the body the record is counted as processed and
    leaves no error; when it raises, the record is counted as failed and
    the error is "Error processing message", the record's [messageId] (or
    "unknown") and the text of the exception.  Either way the loop goes
    on. *)
Theorem record_step_with_body (record : pydict) (message_body : pyval)
  (r : response) :
  dict_lookup "body" record = Some message_body ->
  let message_id := str (dict_get "messageId" (PStr "unknown") record) in
  (process_sqs_message message_body (datamap environ) = Ok tt ->
   record_step environ (PDict record) r = (incr_processed r, Ok tt))
  /\ (forall ex,
        process_sqs_message message_body (datamap environ) = Raise ex ->
        record_step environ (PDict record) r
        = (append_error
             ("Error processing message " ++ message_id ++ ": " ++ exn_str ex)
             (incr_failed r), Ok tt)).
Proof.
  intros Hb message_id.
  split; [intros H | intros ex H]; rewrite record_step_mapping;
    unfold tally, record_error; rewrite Hb, H; reflexivity.
Qed.

End HandlerMore.

Lemma lambda_handler_returns_iff_witness :
  exists resp, lambda_handler [] Samples.partial_event PNone = Ok resp.
Proof.
  apply (proj2 (lambda_handler_returns_iff [] Samples.partial_event PNone)).
  right. eexists. eexists. split; [reflexivity|]. split; reflexivity.
Defined.

Lemma lambda_handler_first_not_mapping_witness :
  is_mapping (PInt 5) = false
  /\ lambda_handler []
       [("Records", PList [PDict Samples.valid_record; PInt 5; PNone])] PNone
     = Raise (mkExn AttributeError "'int' object has no attribute 'get'").
Proof.
  split; [reflexivity|].
  apply (lambda_handler_first_not_mapping []
           [("Records", PList [PDict Samples.valid_record; PInt 5; PNone])]
           PNone [Samples.valid_record] (PInt 5) [PNone]);
    reflexivity.
Defined.

Lemma lambda_handler_status_codes_witness :
  lambda_handler [] Samples.no_body_event PNone
  = Ok (mkResponse 500 0 1 ["Record missing 'body' field: m1"])
  /\ dict_mem "Records" Samples.no_body_event = true.
Proof.
  split; [apply lambda_handler_no_body_event|].
  destruct (lambda_handler_status_codes [] Samples.no_body_event PNone _
              lambda_handler_no_body_event) as (_ & H).
  destruct (dict_mem "Records" Samples.no_body_event); [reflexivity|].
  discriminate (proj2 H eq_refl).
Defined.

Lemma lambda_handler_concat_witness :
  exists resp,
    lambda_handler [] Samples.partial_event PNone = Ok resp
    /\ processed resp = 1%Z /\ failed resp = 1%Z.
Proof.
  destruct (lambda_handler_concat [] PNone
              [Samples.valid_record] [Samples.invalid_record]
              (mkResponse 200 1 0 [])
              (mkResponse 500 0 1
                 ["Error processing message m2: [Data Load Error] [Expecting value: line 1 column 1 (char 0)]"]))
    as (resp & H & Hp & Hf & _); [vm_compute; reflexivity ..|].
  exists resp. split; [exact H|]. split; assumption.
Defined.

Lemma record_step_with_body_witness :
  dict_lookup "body" Samples.valid_record = Some Samples.sample_message_body
  /\ record_step [] (PDict Samples.valid_record) (mkResponse 200 0 0 [])
     = (mkResponse 200 1 0 [], Ok tt).
Proof.
  split; [reflexivity|].
  apply (proj1 (record_step_with_body [] Samples.valid_record
                  Samples.sample_message_body (mkResponse 200 0 0 []) eq_refl)).
  vm_compute. reflexivity.
Defined.

(* ===================================================================== *)
(** ** Further properties of the client and the poller                    *)
(* ===================================================================== *)

Section PollerMore.

Variable environ : environment.
Variable service : queue_service.

(** [get_sqs_client] asks for an [sqs] client with the region and the
    credentials it was given, on the endpoint it was given when that is a
    non-empty string and without endpoint otherwise; it raises what the
    creation of that client raises, and nothing else. *)
Lemma get_sqs_client_call (url : option string) (region key secret : string) :
  let asked :=
    mkClient "sqs" region
      (match url with Some (String _ _) => url | _ => None end) key secret in
  get_sqs_client service url region key secret
  = match client_error service asked with
    | Some ex => Raise ex
    | None => Ok asked
    end.
Proof.
  unfold get_sqs_client. destruct url as [[|c u]|]; reflexivity.
Qed.

(** X8.  [get_queue_url] raises no [Exception]: it returns the [QueueUrl]
    of the service's answer, and [None] when the service raises an
    [Exception] (a [ClientError] or any other) or when its answer has no
    [QueueUrl]. *)
Theorem get_queue_url_total (client : sqs_client) (queue_name : pyval) :
  (forall answer url,
     queue_url_response service client queue_name = Ok (PDict answer) ->
     dict_lookup "QueueUrl" answer = Some url ->
     get_queue_url service client queue_name = Ok url)
  /\ (forall answer,
        queue_url_response service client queue_name = Ok (PDict answer) ->
        dict_lookup "QueueUrl" answer = None ->
        get_queue_url service client queue_name = Ok PNone)
  /\ (forall e,
        queue_url_response service client queue_name = Raise e ->
        isinstance e Exception = true ->
        get_queue_url service client queue_name = Ok PNone)
  /\ (forall e,
        get_queue_url service client queue_name = Raise e ->
        isinstance e Exception = false).
Proof.
  unfold get_queue_url. repeat split.
  - intros answer url -> H. cbn. rewrite H. reflexivity.
  - intros answer -> H. cbn. rewrite H. reflexivity.
  - intros e -> H. cbn. rewrite H. reflexivity.
  - intros e. destruct (bind _ _) as [url|e']; [discriminate|].
    destruct (isinstance e' Exception) eqn:H; [discriminate|].
    intros [= <-]. exact H.
Qed.

(** Every exception is a [KeyboardInterrupt] or an [Exception]. *)
Lemma exn_cases (e : exn) :
  isinstance e KeyboardInterrupt = true \/ isinstance e Exception = true.
Proof. destruct e as [[] m]; cbn; auto. Qed.

(** X9.  Once the settings are read, a failure to create the client or to
    find the queue ends [main] with [sys.exit(1)] before anything is
    fetched: when creating the client raises an [Exception], when the
    service raises an [Exception] for the queue name, and when the URL it
    answers is missing or empty. *)
Theorem main_setup_failure (fetches : list (result pyval)) (cfg : config) :
  read_config environ = Ok cfg ->
  (forall e, main_client service cfg = Raise e ->
             isinstance e Exception = true ->
             main environ service fetches = Exit 1)
  /\ (forall client e,
        main_client service cfg = Ok client ->
        queue_url_response service client (cfg_queue_name cfg) = Raise e ->
        isinstance e Exception = true ->
        main environ service fetches = Exit 1)
  /\ (forall client url,
        main_client service cfg = Ok client ->
        get_queue_url service client (cfg_queue_name cfg) = Ok url ->
        truthy url = false ->
        main environ service fetches = Exit 1).
Proof.
  intros Hcfg. unfold main. rewrite Hcfg. repeat split.
  - intros e -> ->. reflexivity.
  - intros client e -> Hq He. unfold get_queue_url. rewrite Hq. cbn.
    rewrite He. reflexivity.
  - intros client url -> -> ->. reflexivity.
Qed.

(** What the poller does with a message that has its receipt handle and a
    body the validator accepts: it asks for the deletion, and what follows
    depends on what the deletion does. *)
Lemma poll_message_validated (queue_url : pyval) (message : pydict)
  (receipt_handle message_body : pyval) (p : poller) :
  dict_lookup "ReceiptHandle" message = Some receipt_handle ->
  dict_lookup "Body" message = Some message_body ->
  process_sqs_message message_body (datamap environ) = Ok tt ->
  poll_message environ service queue_url (PDict message) p
  = let asked :=
      mkPoller (processed_count p) (failed_count p)
        (delete_calls p ++ [receipt_handle])%list in
    match delete_response service (delete_calls p) queue_url receipt_handle with
    | Ok _ => (incr_processed_count asked, Ok tt)
    | Raise e =>
        if isinstance e JSONDecodeError then
          let again :=
            mkPoller (processed_count p) (failed_count p + 1)
              (delete_calls p ++ [receipt_handle; receipt_handle])%list in
          match delete_response service (delete_calls asked) queue_url
                  receipt_handle with
          | Ok _ => (again, Ok tt)
          | Raise e' =>
              if isinstance e' Exception then (again, Ok tt)
              else (again, Raise e')
          end
        else if isinstance e Exception then (incr_failed_count asked, Ok tt)
        else (asked, Raise e)
    end.
Proof.
  intros Hh Hb Hv.
  unfold poll_message, seq, eval, try_except, update, delete_message, ret.
  cbn [getitem get]. rewrite Hh, Hb, Hv. cbn zeta.
  cbn [processed_count failed_count delete_calls].
  destruct (delete_response service (delete_calls p) queue_url receipt_handle)
    as [[]|e]; [reflexivity|].
  cbn [select_clause]. destruct (isinstance e JSONDecodeError).
  - unfold incr_failed_count. cbn [processed_count failed_count delete_calls].
    rewrite <- app_assoc. cbn [app].
    destruct (delete_response service _ queue_url receipt_handle) as [[]|e'];
      [reflexivity|].
    cbn [select_clause]. destruct (isinstance e' Exception); reflexivity.
  - destruct (isinstance e Exception); reflexivity.
Qed.

(** What the poller does with a message the validator does not get to
    accept. *)
Lemma poll_message_cases (queue_url message : pyval) (p : poller) :
  (exists e, poll_message environ service queue_url message p = (p, Raise e))
  \/ poll_message environ service queue_url message p
     = (incr_failed_count p, Ok tt)
  \/ exists d receipt_handle message_body,
       message = PDict d
       /\ dict_lookup "ReceiptHandle" d = Some receipt_handle
       /\ dict_lookup "Body" d = Some message_body
       /\ process_sqs_message message_body (datamap environ) = Ok tt.
Proof.
  destruct message as [| | | | | |d];
    try (left; eexists; reflexivity).
  destruct (dict_lookup "ReceiptHandle" d) as [receipt_handle|] eqn:Hh.
  - destruct (bind (getitem (PDict d) "Body")
                (fun b => process_sqs_message b (datamap environ)))
      as [[]|ex] eqn:Hp.
    + right. right. cbn [getitem] in Hp.
      destruct (dict_lookup "Body" d) as [message_body|] eqn:Hb;
        [|discriminate].
      exists d, receipt_handle, message_body. auto.
    + right. left.
      apply (poll_message_not_deleted environ service queue_url d
               receipt_handle ex p Hh Hp).
      * cbn [getitem] in Hp. destruct (dict_lookup "Body" d); cbn in Hp.
        -- apply (process_sqs_message_raises_exception _ _ _ Hp).
        -- injection Hp as <-. reflexivity.
      * cbn [getitem] in Hp. destruct (dict_lookup "Body" d); cbn in Hp.
        -- apply (process_sqs_message_raises_exception _ _ _ Hp).
        -- injection Hp as <-. reflexivity.
  - left. unfold poll_message, seq, eval. cbn [getitem]. rewrite Hh.
    eexists. reflexivity.
Qed.

End PollerMore.

Section PollerLoop.

Variable environ : environment.
Variable service : queue_service.

(** X11.  A message the validator accepts has [delete_message] called for
    its receipt handle.  When the deletion succeeds the message is counted
    as processed; when the deletion raises an [Exception] (other than a
    [JSONDecodeError]) the message, though valid, is counted as failed and
    not as processed, and the loop goes on. *)
Theorem poll_message_valid (queue_url : pyval) (message : pydict)
  (receipt_handle message_body : pyval) (p : poller) :
  dict_lookup "ReceiptHandle" message = Some receipt_handle ->
  dict_lookup "Body" message = Some message_body ->
  process_sqs_message message_body (datamap environ) = Ok tt ->
  let calls := (delete_calls p ++ [receipt_handle])%list in
  (delete_response service (delete_calls p) queue_url receipt_handle = Ok tt ->
   poll_message environ service queue_url (PDict message) p
   = (mkPoller (processed_count p + 1) (failed_count p) calls, Ok tt))
  /\ (forall e,
        delete_response service (delete_calls p) queue_url receipt_handle
        = Raise e ->
        isinstance e JSONDecodeError = false ->
        isinstance e Exception = true ->
        poll_message environ service queue_url (PDict message) p
        = (mkPoller (processed_count p) (failed_count p + 1) calls, Ok tt)).
Proof.
  intros Hh Hb Hv calls.
  rewrite (poll_message_validated environ service queue_url message
             receipt_handle message_body p Hh Hb Hv).
  split.
  - intros ->. reflexivity.
  - intros e -> -> ->. reflexivity.
Qed.

(** X12.  [delete_message] is never called for a message the validator did
    not accept: if the poller makes a deletion call while it handles a
    message, the message is a mapping with a receipt handle and a body, and
    the validator returned normally on that body. *)
Theorem poll_message_deletes_only_valid (queue_url message : pyval)
  (p p' : poller) (x : result unit) :
  poll_message environ service queue_url message p = (p', x) ->
  delete_calls p' <> delete_calls p ->
  exists d receipt_handle message_body,
    message = PDict d
    /\ dict_lookup "ReceiptHandle" d = Some receipt_handle
    /\ dict_lookup "Body" d = Some message_body
    /\ process_sqs_message message_body (datamap environ) = Ok tt.
Proof.
  intros H Hneq.
  destruct (poll_message_cases environ service queue_url message p)
    as [(e & He) | [Hf | Hv]].
  - rewrite He in H. injection H as <- _. destruct Hneq. reflexivity.
  - rewrite Hf in H. injection H as <- _. destruct Hneq. reflexivity.
  - exact Hv.
Qed.

(** One message: the deletion calls made, and the counters. *)
Lemma poll_message_advanced (queue_url message : pyval) (p p' : poller)
  (x : result unit) :
  poll_message environ service queue_url message p = (p', x) ->
  exists calls, advanced p p' calls.
Proof.
  intros H.
  destruct (poll_message_cases environ service queue_url message p)
    as [(e & He) | [Hf | (d & h & b & -> & Hh & Hb & Hv)]].
  - rewrite He in H. injection H as <- _. exists [].
    unfold advanced. rewrite app_nil_r. cbn. repeat split; lia.
  - rewrite Hf in H. injection H as <- _. exists [].
    unfold advanced. cbn. rewrite app_nil_r. repeat split; lia.
  - rewrite (poll_message_validated environ service queue_url d h b p Hh Hb Hv)
      in H. cbn zeta in H.
    destruct (delete_response service (delete_calls p) queue_url h) as [[]|e].
    + injection H as <- _. exists [h]. unfold advanced. cbn. repeat split; lia.
    + destruct (isinstance e JSONDecodeError).
      * exists [h; h].
        destruct (delete_response service _ queue_url h) as [[]|e'];
          [|destruct (isinstance e' Exception)];
          injection H as <- _; unfold advanced; cbn; repeat split; lia.
      * exists [h]. destruct (isinstance e Exception);
          injection H as <- _; unfold advanced; cbn; repeat split; lia.
Qed.

Lemma advanced_refl (p : poller) : advanced p p [].
Proof. unfold advanced. rewrite app_nil_r. cbn. repeat split; lia. Qed.

Lemma advanced_trans (p1 p2 p3 : poller) (c1 c2 : list pyval) :
  advanced p1 p2 c1 -> advanced p2 p3 c2 -> advanced p1 p3 (c1 ++ c2)%list.
Proof.
  unfold advanced. intros (E1 & A1 & B1 & C1) (E2 & A2 & B2 & C2).
  rewrite E2, E1, <- app_assoc, length_app. repeat split; lia.
Qed.

Lemma for_each_advanced (queue_url : pyval) (messages : list pyval) :
  forall (p p' : poller) (x : result unit),
    for_each (poll_message environ service queue_url) messages p = (p', x) ->
    exists calls, advanced p p' calls.
Proof.
  induction messages as [|m messages IH]; intros p p' x; cbn [for_each].
  - intros [= <- _]. exists []. apply advanced_refl.
  - unfold seq.
    destruct (poll_message environ service queue_url m p) as [p1 [[]|e]] eqn:E;
      apply poll_message_advanced in E as (c1 & A1).
    + intros H. apply IH in H as (c2 & A2). eexists.
      eapply advanced_trans; eassumption.
    + intros [= <- _]. eauto.
Qed.

Lemma poll_once_advanced (queue_url : pyval) (fetched : result pyval)
  (p p' : poller) (x : result unit) :
  poll_once environ service queue_url fetched p = (p', x) ->
  exists calls, advanced p p' calls.
Proof.
  unfold poll_once, seq, eval.
  destruct fetched as [response|e];
    [|intros [= <- _]; exists []; apply advanced_refl].
  destruct (contains "Messages" response) as [[|]|e];
    try (intros [= <- _]; exists []; apply advanced_refl).
  destruct (bind _ _) as [messages|e];
    [|intros [= <- _]; exists []; apply advanced_refl].
  apply for_each_advanced.
Qed.

(** X14.  Once it has started, the loop of the poller lets no exception
    out: whatever the fetches and the deletions do, it ends normally, so
    [main] returns after a setup that succeeded. *)
Theorem poll_loop_never_raises (queue_url : pyval)
  (fetches : list (result pyval)) (p : poller) :
  snd (poll_loop environ service queue_url fetches p) = Ok tt.
Proof.
  revert p. induction fetches as [|fetched later IH]; intros p; cbn [poll_loop].
  - reflexivity.
  - destruct (poll_once environ service queue_url fetched p) as [p' [[]|e]].
    + apply IH.
    + destruct (isinstance e KeyboardInterrupt) eqn:Hk; [reflexivity|].
      destruct (exn_cases e) as [H | H]; [congruence|].
      rewrite H. apply IH.
Qed.

Lemma poll_loop_advanced (queue_url : pyval) (fetches : list (result pyval)) :
  forall (p p' : poller) (x : result unit),
    poll_loop environ service queue_url fetches p = (p', x) ->
    exists calls, advanced p p' calls.
Proof.
  induction fetches as [|fetched later IH]; intros p p' x; cbn [poll_loop].
  - intros [= <- _]. exists []. apply advanced_refl.
  - destruct (poll_once environ service queue_url fetched p) as [p1 [[]|e]] eqn:E;
      apply poll_once_advanced in E as (c1 & A1).
    + intros H. apply IH in H as (c2 & A2). eexists.
      eapply advanced_trans; eassumption.
    + destruct (isinstance e KeyboardInterrupt); [intros [= <- _]; eauto|].
      destruct (isinstance e Exception); [|intros [= <- _]; eauto].
      intros H. apply IH in H as (c2 & A2). eexists.
      eapply advanced_trans; eassumption.
Qed.

(** X16.  When [main] returns, the number of messages it reports as
    processed is at most the number of deletion calls it made, and neither
    counter is negative: nothing is counted as processed without a call of
    [delete_message]. *)
Theorem main_counts (fetches : list (result pyval)) (final : poller) :
  main environ service fetches = Stopped final ->
  (0 <= processed_count final <= Z.of_nat (length (delete_calls final)))%Z
  /\ (0 <= failed_count final)%Z.
Proof.
  unfold main.
  destruct (read_config environ) as [cfg|]; [|discriminate].
  destruct (main_client service cfg) as [client|e];
    [|destruct (isinstance e Exception); discriminate].
  destruct (get_queue_url service client (cfg_queue_name cfg)) as [url|];
    [|discriminate].
  destruct (truthy url); [|discriminate]. cbn [negb].
  destruct (poll_loop environ service url fetches (mkPoller 0 0 []))
    as [p [[]|e]] eqn:E; [|discriminate].
  intros [= <-]. apply poll_loop_advanced in E as (calls & Ec & A & B & C).
  cbn in Ec, A, B, C. rewrite Ec. lia.
Qed.

End PollerLoop.

Section PollerEdges.

Variable environ : environment.
Variable service : queue_service.

(** One message of a well-behaved service: counted once. *)
Lemma poll_message_counted (queue_url message : pyval) (p p' : poller)
  (x : result unit) :
  deletes_ordinarily service ->
  is_message message = true ->
  poll_message environ service queue_url message p = (p', x) ->
  x = Ok tt
  /\ (processed_count p' + failed_count p'
      = processed_count p + failed_count p + 1)%Z.
Proof.
  intros Hs Hm. destruct message as [| | | | | |d]; try discriminate.
  cbn in Hm. unfold dict_mem in Hm.
  destruct (dict_lookup "ReceiptHandle" d) as [h|] eqn:Hh; [clear Hm|discriminate].
  destruct (bind (getitem (PDict d) "Body")
              (fun b => process_sqs_message b (datamap environ)))
    as [[]|ex] eqn:Hp.
  - cbn [getitem] in Hp.
    destruct (dict_lookup "Body" d) as [b|] eqn:Hb; [|discriminate].
    cbn [bind] in Hp.
    rewrite (poll_message_validated environ service queue_url d h b p Hh Hb Hp).
    cbn zeta.
    destruct (delete_response service (delete_calls p) queue_url h) as [[]|e] eqn:D.
    + intros [= <- <-]. cbn. split; [reflexivity|lia].
    + rewrite (Hs _ _ _ _ D).
      destruct (isinstance e JSONDecodeError).
      * match goal with
        | |- context [match ?t with _ => _ end] =>
            destruct t as [[]|e'] eqn:D'
        end;
          [|rewrite (Hs _ _ _ _ D')];
          intros [= <- <-]; cbn; (split; [reflexivity|lia]).
      * intros [= <- <-]. cbn. split; [reflexivity|lia].
  - assert (isinstance ex JSONDecodeError = false
            /\ isinstance ex Exception = true) as [Hj He].
    { cbn [getitem] in Hp. destruct (dict_lookup "Body" d); cbn in Hp.
      - destruct (process_sqs_message_raises_exception _ _ _ Hp). auto.
      - injection Hp as <-. auto. }
    rewrite (poll_message_not_deleted environ service queue_url d h ex p
               Hh Hp Hj He).
    intros [= <- <-]. cbn. split; [reflexivity|lia].
Qed.

(** X15.  With a service whose deletions raise nothing outside
    [Exception], every message of a fetched batch (each a mapping with its
    receipt handle) is counted exactly once, as processed or as failed, and
    the batch is gone through to its end. *)
Theorem for_each_message_counted (queue_url : pyval) (messages : list pyval)
  (p p' : poller) (x : result unit) :
  deletes_ordinarily service ->
  forallb is_message messages = true ->
  for_each (poll_message environ service queue_url) messages p = (p', x) ->
  x = Ok tt
  /\ (processed_count p' + failed_count p'
      = processed_count p + failed_count p + Z.of_nat (length messages))%Z.
Proof.
  intros Hs. revert p.
  induction messages as [|m messages IH]; intros p Hall; cbn [for_each].
  - intros [= <- <-]. cbn. split; [reflexivity|lia].
  - cbn [forallb] in Hall. apply andb_prop in Hall as [Hm Hall].
    unfold seq.
    destruct (poll_message environ service queue_url m p) as [p1 x1] eqn:E.
    apply (poll_message_counted _ _ _ _ _ Hs Hm) in E as [-> E1].
    intros H. apply (IH p1 Hall) in H as [-> E2].
    split; [reflexivity|]. cbn [length]. lia.
Qed.

(** X13.  A message without receipt handle ends the turn: the [KeyError]
    leaves the batch, the message is not counted, the messages after it in
    the batch are neither validated, deleted nor counted, and the loop goes
    on with the next fetch. *)
Theorem poll_once_missing_handle (queue_url : pyval) (response message : pydict)
  (before after : list pyval) (p p1 : poller) :
  dict_lookup "Messages" response
  = Some (PList (before ++ PDict message :: after)%list) ->
  dict_lookup "ReceiptHandle" message = None ->
  for_each (poll_message environ service queue_url) before p = (p1, Ok tt) ->
  poll_once environ service queue_url (Ok (PDict response)) p
  = (p1, Raise (mkExn KeyError "'ReceiptHandle'"))
  /\ forall later,
       poll_loop environ service queue_url (Ok (PDict response) :: later) p
       = poll_loop environ service queue_url later p1.
Proof.
  intros Hm Hh Hb.
  assert (poll_once environ service queue_url (Ok (PDict response)) p
          = (p1, Raise (mkExn KeyError "'ReceiptHandle'"))) as H.
  { unfold poll_once, seq, eval. cbn [contains getitem]. unfold dict_mem.
    rewrite Hm. cbn [bind iterate]. rewrite for_each_app, Hb.
    cbn [for_each]. unfold seq, poll_message, eval. cbn [getitem].
    rewrite Hh. reflexivity. }
  split; [exact H|]. intros later. cbn [poll_loop]. rewrite H. reflexivity.
Qed.

(** The loop with the flag set does nothing. *)
Lemma serve_shutdown (queue_url : pyval) (turns : list turn) (p : poller)
  (slept : Z) :
  serve environ service queue_url turns true p slept = (p, slept, Left_loop).
Proof. destruct turns; reflexivity. Qed.

(** X17.  The flag is read at the top of each turn and, after a turn that
    raised an [Exception], once more before the pause.  When it is set
    before the loop starts nothing is fetched.  When a signal arrives
    during a turn, that turn is gone through to its end and no turn is made
    after it: the poller ends as the loop does on the turns up to that one,
    having slept at most five seconds for each of them.  A turn whose fetch
    raises an [Exception] is followed by a pause of five seconds, unless
    the signal came before the flag was read for it. *)
Theorem serve_until_signal (queue_url : pyval) (turns : list turn) (p : poller)
  (slept : Z) :
  serve environ service queue_url turns true p slept = (p, slept, Left_loop)
  /\ (existsb is_signalled turns = true ->
      exists slept',
        serve environ service queue_url turns false p slept
        = (fst (poll_loop environ service queue_url
                  (map received (heard turns)) p),
           slept', Left_loop)
        /\ (slept <= slept' <= slept + 5 * Z.of_nat (length (heard turns)))%Z)
  /\ (forall e later,
        isinstance e KeyboardInterrupt = false ->
        isinstance e Exception = true ->
        serve environ service queue_url (mkTurn (Raise e) Early :: later)
          false p slept
        = (p, slept, Left_loop)
        /\ serve environ service queue_url (mkTurn (Raise e) Late :: later)
             false p slept
           = (p, (slept + 5)%Z, Left_loop)
        /\ serve environ service queue_url (mkTurn (Raise e) Quiet :: later)
             false p slept
           = serve environ service queue_url later false p (slept + 5)%Z).
Proof.
  split; [apply serve_shutdown|]. split.
  - revert p slept. induction turns as [|t later IH]; intros p slept;
      [discriminate|].
    cbn [existsb heard serve]. unfold signal_handler, is_signalled.
    destruct (poll_once environ service queue_url (received t) p)
      as [p' x] eqn:Ep.
    assert (forall n, (slept <= n <= slept + 5)%Z ->
              existsb is_signalled later = true ->
              exists slept',
                serve environ service queue_url later false p' n
                = (fst (poll_loop environ service queue_url
                          (map received (heard later)) p'), slept', Left_loop)
                /\ (slept <= slept'
                    <= slept + 5 * Z.of_nat (S (length (heard later))))%Z)
      as Hnext.
    { intros n Hn Hex. destruct (IH p' n Hex) as (slept' & -> & Hs).
      exists slept'. split; [reflexivity|]. lia. }
    destruct (signalled t) eqn:Hs; cbn [orb map poll_loop length].
    + (* no signal in this turn *)
      intros Hex. rewrite Ep.
      destruct x as [[]|e]; [apply Hnext; [lia|exact Hex]|].
      destruct (isinstance e KeyboardInterrupt) eqn:Hk;
        [exists slept; split; [reflexivity|lia]|].
      destruct (exn_cases e) as [H | H]; [congruence|].
      rewrite H. apply Hnext; [lia|exact Hex].
    + (* a signal, early *)
      intros _. rewrite Ep.
      destruct x as [[]|e];
        [rewrite serve_shutdown; exists slept; split; [reflexivity|lia]|].
      destruct (isinstance e KeyboardInterrupt) eqn:Hk;
        [exists slept; split; [reflexivity|lia]|].
      destruct (exn_cases e) as [H | H]; [congruence|].
      rewrite H, serve_shutdown. exists slept. split; [reflexivity|lia].
    + (* a signal, late *)
      intros _. rewrite Ep.
      destruct x as [[]|e];
        [rewrite serve_shutdown; exists slept; split; [reflexivity|lia]|].
      destruct (isinstance e KeyboardInterrupt) eqn:Hk;
        [exists slept; split; [reflexivity|lia]|].
      destruct (exn_cases e) as [H | H]; [congruence|].
      rewrite H, serve_shutdown. exists (slept + 5)%Z.
      split; [reflexivity|lia].
  - intros e later Hk He. cbn [serve received signalled]. unfold signal_handler.
    unfold poll_once, seq, eval. rewrite Hk, He.
    rewrite !serve_shutdown. repeat split.
Qed.

(** What is left of a text with a stray character still has it. *)
Lemma skip_space_stray (s : string) :
  has_stray s = true -> has_stray (skip_space s) = true.
Proof.
  induction s as [|c t IH]; cbn [has_stray skip_space]; [discriminate|].
  destruct (is_space c) eqn:Hc; [|intros H; exact H].
  unfold int_char. rewrite Hc, orb_true_r. cbn. exact IH.
Qed.

Lemma int_digits_stray (s : string) : forall prev ds r,
  int_digits s prev = Some (ds, r) -> has_stray s = true -> has_stray r = true.
Proof.
  induction s as [|c t IH]; intros prev ds r; cbn [int_digits].
  - destruct prev; [discriminate|]. intros [= _ <-] H. exact H.
  - destruct (Json.is_digit c) eqn:Hd.
    + destruct (int_digits t false) as [[ds' r']|] eqn:E; [|discriminate].
      intros [= _ <-]. cbn [has_stray]. unfold int_char. rewrite Hd. cbn.
      apply (IH _ _ _ E).
    + destruct (Ascii.eqb c "_"%char) eqn:Hu.
      * destruct prev; [discriminate|]. intros E. cbn [has_stray].
        unfold int_char. rewrite Hu, orb_true_r. cbn. apply (IH _ _ _ E).
      * destruct prev; [discriminate|]. intros [= _ <-] H. exact H.
Qed.

Lemma stray_not_space (s : string) :
  has_stray s = true -> skip_space s <> EmptyString.
Proof.
  intros H. apply skip_space_stray in H.
  destruct (skip_space s); [discriminate H | discriminate].
Qed.

Lemma ascii_stray_stray (s : string) :
  has_ascii_stray s = true -> has_stray s = true.
Proof.
  induction s as [|c t IH]; cbn [has_ascii_stray has_stray]; [discriminate|].
  intros H. apply orb_prop in H as [H | H].
  - apply andb_prop in H as [_ ->]. reflexivity.
  - rewrite (IH H). apply orb_true_r.
Qed.

(** The bytes after the lead byte of a character are not ASCII. *)
Lemma code_point_continuations (conts : list ascii) : forall lead least u,
  code_point lead conts least = Some u ->
  forallb (fun c => (128 <=? N_of_ascii c)%N) conts = true.
Proof.
  induction conts as [|c conts IH]; intros lead least u; cbn [code_point forallb].
  - reflexivity.
  - destruct (is_continuation c) eqn:Hc; [|discriminate].
    intros H. rewrite (IH _ _ _ H), andb_true_r.
    unfold is_continuation in Hc. apply andb_prop in Hc as [Hc _]. exact Hc.
Qed.

Lemma not_ascii_no_stray (c : ascii) :
  (128 <=? N_of_ascii c)%N = true ->
  ((N_of_ascii c <? 128)%N && negb (int_char c)) = false.
Proof.
  intros H. apply N.leb_le in H.
  destruct (N.ltb_spec (N_of_ascii c) 128); [lia|reflexivity].
Qed.

Lemma transformed_stray (u : option N) (rest : string) :
  has_stray rest = true -> has_stray (transformed u rest) = true.
Proof.
  intros H. unfold transformed.
  destruct u as [u|]; [|reflexivity].
  destruct (unicode_isspace u); [cbn [has_stray]; rewrite H; apply orb_true_r|].
  destruct (unicode_decimal u); [|reflexivity].
  cbn [has_stray]. rewrite H. apply orb_true_r.
Qed.

(** An ASCII character that is a stray stays one, or a question mark comes
    before it. *)
Lemma transform_stray (n : nat) : forall s,
  String.length s <= n -> has_ascii_stray s = true ->
  has_stray (transform s) = true.
Proof.
  induction n as [|n IH]; intros [|c t] Hlen; try discriminate;
    [cbn in Hlen; lia|].
  cbn [String.length] in Hlen. cbn [transform has_ascii_stray]. intros H.
  destruct (N.ltb_spec (N_of_ascii c) 127) as [Hlt | Hge].
  - cbn [has_stray]. apply orb_prop in H as [H | H].
    + apply andb_prop in H as [_ ->]. reflexivity.
    + rewrite (IH t ltac:(lia) H). apply orb_true_r.
  - assert (forall conts r least lead,
              String.length r < n ->
              (code_point lead conts least <> None ->
               has_ascii_stray r = true) ->
              has_stray (transformed (code_point lead conts least) (transform r))
              = true) as Hbranch.
    { intros conts r least lead Hr Hs.
      destruct (code_point lead conts least) eqn:E; [|reflexivity].
      apply transformed_stray, IH; [lia|]. apply Hs. discriminate. }
    destruct ((192 <=? N_of_ascii c)%N && (N_of_ascii c <? 224)%N) eqn:H2.
    { destruct t as [|c1 r]; [reflexivity|]. cbn [String.length] in Hlen.
      apply Hbranch; [lia|]. intros Hcp.
      destruct (code_point _ _ _) eqn:E in Hcp; [|destruct Hcp; reflexivity].
      apply code_point_continuations in E. cbn [forallb] in E.
      apply andb_prop in E as [E1 _]. apply andb_prop in H2 as [H2 _].
      cbn [has_ascii_stray] in H.
      rewrite (not_ascii_no_stray c1 E1) in H.
      rewrite (not_ascii_no_stray c) in H; [exact H|].
      apply N.leb_le in H2. apply N.leb_le. lia. }
    destruct ((224 <=? N_of_ascii c)%N && (N_of_ascii c <? 240)%N) eqn:H3.
    { destruct t as [|c1 [|c2 r]]; try reflexivity. cbn [String.length] in Hlen.
      apply Hbranch; [lia|]. intros Hcp.
      destruct (code_point _ _ _) eqn:E in Hcp; [|destruct Hcp; reflexivity].
      apply code_point_continuations in E. cbn [forallb] in E.
      apply andb_prop in E as [E1 E]. apply andb_prop in E as [E2 _].
      apply andb_prop in H3 as [H3 _].
      cbn [has_ascii_stray] in H.
      rewrite (not_ascii_no_stray c1 E1), (not_ascii_no_stray c2 E2) in H.
      rewrite (not_ascii_no_stray c) in H; [exact H|].
      apply N.leb_le in H3. apply N.leb_le. lia. }
    destruct ((240 <=? N_of_ascii c)%N && (N_of_ascii c <? 248)%N) eqn:H4.
    { destruct t as [|c1 [|c2 [|c3 r]]]; try reflexivity.
      cbn [String.length] in Hlen.
      apply Hbranch; [lia|]. intros Hcp.
      destruct (code_point _ _ _) eqn:E in Hcp; [|destruct Hcp; reflexivity].
      apply code_point_continuations in E. cbn [forallb] in E.
      apply andb_prop in E as [E1 E]. apply andb_prop in E as [E2 E].
      apply andb_prop in E as [E3 _]. apply andb_prop in H4 as [H4 _].
      cbn [has_ascii_stray] in H.
      rewrite (not_ascii_no_stray c1 E1), (not_ascii_no_stray c2 E2),
        (not_ascii_no_stray c3 E3) in H.
      rewrite (not_ascii_no_stray c) in H; [exact H|].
      apply N.leb_le in H4. apply N.leb_le. lia. }
    reflexivity.
Qed.

(** An ASCII text with a stray character is no number. *)
Lemma long_from_string_stray (s text : string) :
  has_stray text = true ->
  exists e, long_from_string s text = Raise e /\ exn_cls e = ValueError.
Proof.
  intros H. apply skip_space_stray in H. unfold long_from_string.
  set (invalid := Raise (mkExn ValueError _) : result Z).
  assert (exists e, invalid = (Raise e : result Z) /\ exn_cls e = ValueError)
    as Hinv by (eexists; split; reflexivity).
  destruct (match skip_space text with
            | EmptyString => (false, skip_space text)
            | String c t => _
            end) as [neg s2] eqn:Es.
  assert (has_stray s2 = true) as H2.
  { destruct (skip_space text) as [|c t]; [discriminate H|].
    destruct (Ascii.eqb c "-"%char) eqn:E1;
      [|destruct (Ascii.eqb c "+"%char) eqn:E2];
      injection Es as _ <-; try exact H;
      cbn [has_stray] in H; unfold int_char in H; rewrite ?E1, ?E2 in H;
      destruct (Json.is_digit c), (is_space c), (Ascii.eqb c "+"%char),
        (Ascii.eqb c "_"%char); cbn in H; exact H. }
  destruct (is_prefix "_" s2); [exact Hinv|].
  destruct (int_digits s2 false) as [[ds r]|] eqn:Ed; [|exact Hinv].
  apply (int_digits_stray _ _ _ _ Ed) in H2.
  destruct ds as [|d ds]; [exact Hinv|].
  unfold Json.parse_int.
  destruct (_ <? _)%nat; [eexists; split; reflexivity|].
  destruct (skip_space r) eqn:Er; [|exact Hinv].
  destruct (stray_not_space r H2 Er).
Qed.

(** A text with an ASCII stray character is no number for [int]. *)
Lemma int_of_str_stray (s : string) :
  has_ascii_stray s = true ->
  exists e, int_of_str s = Raise e /\ exn_cls e = ValueError.
Proof.
  intros H. unfold int_of_str. apply long_from_string_stray.
  destruct (is_ascii s).
  - apply ascii_stray_stray, H.
  - apply (transform_stray (String.length s) s (le_n _) H).
Qed.

(** X10.  If the poll wait time or the visibility timeout holds an ASCII
    character that is no digit, space, sign or underscore, [int] raises and
    [main] ends with that [ValueError] uncaught, before any client is
    created or anything is fetched. *)
Theorem main_bad_number (fetches : list (result pyval)) :
  (has_ascii_stray (environ_get_default environ "SQS_POLL_WAIT_TIME" "20") = true
   \/ ((exists n, int_of_str (environ_get_default environ
                                "SQS_POLL_WAIT_TIME" "20") = Ok n)
       /\ has_ascii_stray (environ_get_default environ
                             "SQS_VISIBILITY_TIMEOUT" "30") = true)) ->
  exists e, main environ service fetches = Uncaught e /\ exn_cls e = ValueError.
Proof.
  unfold main, read_config.
  intros [H | ((n & ->) & H)]; apply int_of_str_stray in H as (e & -> & He);
    exists e; split; [reflexivity | exact He | reflexivity | exact He].
Qed.

End PollerEdges.

Lemma get_queue_url_total_witness :
  get_queue_url Samples.healthy_service Samples.default_client PNone
  = Ok (PStr "http://q/foo")
  /\ get_queue_url Samples.no_queue_service Samples.default_client PNone
     = Ok PNone.
Proof.
  split.
  - apply (proj1 (get_queue_url_total Samples.healthy_service
                    Samples.default_client PNone)
             [("QueueUrl", PStr "http://q/foo")]); reflexivity.
  - apply (proj1 (proj2 (proj2 (get_queue_url_total Samples.no_queue_service
                                  Samples.default_client PNone)))
             Samples.access_denied); reflexivity.
Defined.

Lemma main_setup_failure_witness :
  read_config [] = Ok Samples.default_config
  /\ main [] Samples.no_queue_service
       [Ok (PDict Samples.mixed_batch)] = Exit 1.
Proof.
  split; [vm_compute; reflexivity|].
  apply (proj1 (proj2 (main_setup_failure [] Samples.no_queue_service
                         [Ok (PDict Samples.mixed_batch)] Samples.default_config
                         ltac:(vm_compute; reflexivity)))
           Samples.default_client Samples.access_denied); reflexivity.
Defined.

Lemma main_bad_number_witness :
  has_ascii_stray "20s" = true
  /\ exists e,
       main [("SQS_POLL_WAIT_TIME", "20s")] Samples.healthy_service [] = Uncaught e
       /\ exn_cls e = ValueError.
Proof.
  split; [reflexivity|].
  apply (main_bad_number [("SQS_POLL_WAIT_TIME", "20s")] Samples.healthy_service []).
  left. reflexivity.
Defined.

Lemma poll_message_valid_witness :
  poll_message [] Samples.healthy_service (PStr "http://q/foo")
    (PDict (Samples.message "rh-1" Samples.sample_message_body)) (mkPoller 0 0 [])
  = (mkPoller 1 0 [PStr "rh-1"], Ok tt)
  /\ poll_message [] Samples.failing_service (PStr "http://q/foo")
       (PDict (Samples.message "rh-1" Samples.sample_message_body))
       (mkPoller 0 0 [])
     = (mkPoller 0 1 [PStr "rh-1"], Ok tt).
Proof.
  split.
  - apply (proj1 (poll_message_valid [] Samples.healthy_service
                    (PStr "http://q/foo")
                    (Samples.message "rh-1" Samples.sample_message_body)
                    (PStr "rh-1") Samples.sample_message_body (mkPoller 0 0 [])
                    eq_refl eq_refl ltac:(vm_compute; reflexivity)));
      reflexivity.
  - apply (proj2 (poll_message_valid [] Samples.failing_service
                    (PStr "http://q/foo")
                    (Samples.message "rh-1" Samples.sample_message_body)
                    (PStr "rh-1") Samples.sample_message_body (mkPoller 0 0 [])
                    eq_refl eq_refl ltac:(vm_compute; reflexivity))
             Samples.access_denied); reflexivity.
Defined.

Lemma poll_message_deletes_only_valid_witness :
  exists d receipt_handle message_body,
    PDict (Samples.message "rh-1" Samples.sample_message_body) = PDict d
    /\ dict_lookup "ReceiptHandle" d = Some receipt_handle
    /\ dict_lookup "Body" d = Some message_body
    /\ process_sqs_message message_body (datamap []) = Ok tt.
Proof.
  apply (poll_message_deletes_only_valid [] Samples.healthy_service
           (PStr "http://q/foo")
           (PDict (Samples.message "rh-1" Samples.sample_message_body))
           (mkPoller 0 0 []) (mkPoller 1 0 [PStr "rh-1"]) (Ok tt)
           poll_message_valid_body).
  discriminate.
Defined.

Lemma poll_once_missing_handle_witness :
  dict_lookup "ReceiptHandle" Samples.message_without_handle = None
  /\ poll_once [] Samples.healthy_service (PStr "http://q/foo")
       (Ok (PDict Samples.broken_batch)) (mkPoller 0 0 [])
     = (mkPoller 1 0 [PStr "rh-1"], Raise (mkExn KeyError "'ReceiptHandle'")).
Proof.
  split; [reflexivity|].
  apply (proj1 (poll_once_missing_handle [] Samples.healthy_service
                  (PStr "http://q/foo") Samples.broken_batch
                  Samples.message_without_handle
                  [PDict (Samples.message "rh-1" Samples.sample_message_body)]
                  [PDict (Samples.message "rh-3" Samples.sample_message_body)]
                  (mkPoller 0 0 []) (mkPoller 1 0 [PStr "rh-1"])
                  eq_refl eq_refl ltac:(vm_compute; reflexivity))).
Defined.

Lemma healthy_service_ordinary : deletes_ordinarily Samples.healthy_service.
Proof. intros calls url h e H. discriminate H. Qed.

Lemma for_each_message_counted_witness :
  for_each (poll_message [] Samples.healthy_service (PStr "http://q/foo"))
    [PDict (Samples.message "rh-1" Samples.sample_message_body);
     PDict (Samples.message "rh-2" Samples.invalid_body)] (mkPoller 0 0 [])
  = (mkPoller 1 1 [PStr "rh-1"], Ok tt)
  /\ (1 + 1 = 0 + 0 + Z.of_nat 2)%Z.
Proof.
  assert (for_each (poll_message [] Samples.healthy_service (PStr "http://q/foo"))
            [PDict (Samples.message "rh-1" Samples.sample_message_body);
             PDict (Samples.message "rh-2" Samples.invalid_body)] (mkPoller 0 0 [])
          = (mkPoller 1 1 [PStr "rh-1"], Ok tt)) as H
    by (vm_compute; reflexivity).
  split; [exact H|].
  exact (proj2 (for_each_message_counted [] Samples.healthy_service
                  (PStr "http://q/foo")
                  [PDict (Samples.message "rh-1" Samples.sample_message_body);
                   PDict (Samples.message "rh-2" Samples.invalid_body)]
                  (mkPoller 0 0 []) (mkPoller 1 1 [PStr "rh-1"]) (Ok tt)
                  healthy_service_ordinary eq_refl H)).
Defined.

Lemma main_mixed_batch :
  main [] Samples.healthy_service [Ok (PDict Samples.mixed_batch)]
  = Stopped (mkPoller 1 1 [PStr "rh-1"]).
Proof. vm_compute. reflexivity. Qed.

Lemma main_counts_witness :
  (0 <= 1 <= Z.of_nat (length [PStr "rh-1"]))%Z /\ (0 <= 1)%Z.
Proof.
  apply (main_counts [] Samples.healthy_service [Ok (PDict Samples.mixed_batch)]
           (mkPoller 1 1 [PStr "rh-1"]) main_mixed_batch).
Defined.

Lemma serve_until_signal_witness :
  existsb is_signalled [mkTurn (Ok (PDict Samples.mixed_batch)) Early;
                        mkTurn (Ok (PDict Samples.mixed_batch)) Quiet] = true
  /\ fst (fst (serve [] Samples.healthy_service (PStr "http://q/foo")
                 [mkTurn (Ok (PDict Samples.mixed_batch)) Early;
                  mkTurn (Ok (PDict Samples.mixed_batch)) Quiet]
                 false (mkPoller 0 0 []) 0))
     = mkPoller 1 1 [PStr "rh-1"]
  /\ serve [] Samples.healthy_service (PStr "http://q/foo")
       [mkTurn (Raise Samples.access_denied) Late;
        mkTurn (Ok (PDict Samples.mixed_batch)) Quiet]
       false (mkPoller 0 0 []) 0
     = (mkPoller 0 0 [], 5%Z, Left_loop).
Proof.
  split; [reflexivity|]. split.
  - destruct (proj1 (proj2 (serve_until_signal [] Samples.healthy_service
                              (PStr "http://q/foo")
                              [mkTurn (Ok (PDict Samples.mixed_batch)) Early;
                               mkTurn (Ok (PDict Samples.mixed_batch)) Quiet]
                              (mkPoller 0 0 []) 0)) eq_refl)
      as (slept' & -> & _).
    vm_compute. reflexivity.
  - apply (proj2 (proj2 (serve_until_signal [] Samples.healthy_service
                           (PStr "http://q/foo") [] (mkPoller 0 0 []) 0))
             Samples.access_denied
             [mkTurn (Ok (PDict Samples.mixed_batch)) Quiet]
             eq_refl eq_refl).
Defined.
